(** * OpsFlow auth service scaffold: logger, error mapper, retry loop, metrics

  A shallow embedding of the Python sources

    - [backend/logger_service/logger.py]
    - [backend/auth_services/app/core/exception_handler.py]
    - [backend/auth_services/app/main.py]
    - [backend/auth_services/app/config/database_conn.py]
    - [logger_service/metrics.py]

  together with the slices of the Python runtime they rest on
  ([logging], [contextvars], [uuid], [os.path], [json],
  [prometheus_client]).  Python objects that are mutated in place and
  shared (the logger named "app", its handler list, a log record passed
  from handler to handler) live in an explicit store and are threaded
  through every call. *)

From Stdlib Require Import ZArith String Ascii List Lia DecimalString.
From stdpp Require Import base option gmap strings list.

Set Warnings "-register-all".

Local Open Scope string_scope.
Local Open Scope Z_scope.

(** ** Python values *)

Module Py.

(** The values that travel through the modelled code: what a [details]
    payload, a context variable or a JSON body can hold.  A [dict] keeps
    insertion order, so it is an association list; its keys are strings.
    A [string] is read as a sequence of code points below 256. *)
Inductive value : Type :=
| VNone
| VBool (b : bool)
| VInt (n : Z)
| VStr (s : string)
| VList (xs : list value)
| VDict (kvs : list (string * value)).

(** Truth value testing, as used by [x or y]. *)
Definition truthy (v : value) : bool :=
  match v with
  | VNone => false
  | VBool b => b
  | VInt n => negb (n =? 0)
  | VStr s => negb (String.eqb s "")
  | VList xs => match xs with [] => false | _ => true end
  | VDict kvs => match kvs with [] => false | _ => true end
  end.

(** [x or y]: [x] when it is truthy, else [y]. *)
Definition or_ (x y : value) : value := if truthy x then x else y.

(** The double quote character. *)
Definition dquote : ascii := "034"%char.

Definition code (c : ascii) : Z := Z.of_N (N_of_ascii c).
Definition chr (n : Z) : ascii := ascii_of_N (Z.to_N n).

Definition hex_digit (n : Z) : ascii :=
  match String.get (Z.to_nat n) "0123456789abcdef" with
  | Some c => c
  | None => "0"%char
  end.

(** ['%0<k>x' % n] for [0 <= n < 16^k]. *)
Fixpoint hex_pad (k : nat) (n : Z) : string :=
  match k with
  | O => ""
  | S k' => hex_pad k' (n / 16) +:+ String (hex_digit (n mod 16)) ""
  end.

(** [str(n)] of an int. *)
Definition str_int (n : Z) : string := NilZero.string_of_int (Z.to_int n).

Fixpoint mem_char (c : ascii) (s : string) : bool :=
  match s with
  | "" => false
  | String d s' => Ascii.eqb c d || mem_char c s'
  end.

(** [str.isprintable] on the code points below 256. *)
Definition printable (c : ascii) : bool :=
  let n := code c in
  (32 <=? n) && negb ((127 <=? n) && (n <=? 160)) && negb (n =? 173).

Definition repr_char (quote c : ascii) : string :=
  if Ascii.eqb c quote || Ascii.eqb c "\"%char then String "\"%char (String c "")
  else if Ascii.eqb c "009"%char then "\t"
  else if Ascii.eqb c "010"%char then "\n"
  else if Ascii.eqb c "013"%char then "\r"
  else if printable c then String c ""
  else "\x" +:+ hex_pad 2 (code c).

Fixpoint repr_chars (quote : ascii) (s : string) : string :=
  match s with
  | "" => ""
  | String c s' => repr_char quote c +:+ repr_chars quote s'
  end.

(** [repr(s)] of a str: single quotes, unless the text has a single quote
    and no double quote. *)
Definition repr_str (s : string) : string :=
  let quote :=
    if mem_char "'"%char s && negb (mem_char dquote s)
    then dquote else "'"%char in
  String quote (repr_chars quote s) +:+ String quote "".

(** [repr(v)]; this is also [str(v)] for everything but a str, and what an
    f-string field [{v}] renders for a dict. *)
Fixpoint repr (v : value) : string :=
  match v with
  | VNone => "None"
  | VBool true => "True"
  | VBool false => "False"
  | VInt n => str_int n
  | VStr s => repr_str s
  | VList xs => "[" +:+ String.concat ", " (List.map repr xs) +:+ "]"
  | VDict kvs =>
      "{" +:+ String.concat ", "
               (List.map (fun '(k, x) => repr_str k +:+ ": " +:+ repr x) kvs)
          +:+ "}"
  end.

(** [str(v)]. *)
Definition str (v : value) : string :=
  match v with
  | VStr s => s
  | _ => repr v
  end.

(** *** [json.dumps(v, ensure_ascii=False, separators=(",", ":"))] *)

Definition json_char (c : ascii) : string :=
  if Ascii.eqb c dquote then String "\"%char (String dquote "")
  else if Ascii.eqb c "\"%char then "\\"
  else if Ascii.eqb c "008"%char then "\b"
  else if Ascii.eqb c "012"%char then "\f"
  else if Ascii.eqb c "010"%char then "\n"
  else if Ascii.eqb c "013"%char then "\r"
  else if Ascii.eqb c "009"%char then "\t"
  else if code c <? 32 then "\u" +:+ hex_pad 4 (code c)
  else String c "".

Fixpoint json_chars (s : string) : string :=
  match s with
  | "" => ""
  | String c s' => json_char c +:+ json_chars s'
  end.

Definition json_str (s : string) : string :=
  String dquote (json_chars s) +:+ String dquote "".

Fixpoint json_dumps (v : value) : string :=
  match v with
  | VNone => "null"
  | VBool true => "true"
  | VBool false => "false"
  | VInt n => str_int n
  | VStr s => json_str s
  | VList xs => "[" +:+ String.concat "," (List.map json_dumps xs) +:+ "]"
  | VDict kvs =>
      "{" +:+ String.concat ","
               (List.map (fun '(k, x) => json_str k +:+ ":" +:+ json_dumps x) kvs)
          +:+ "}"
  end.

(** [s.encode("utf-8")] on code points below 256. *)
Fixpoint utf8 (s : string) : string :=
  match s with
  | "" => ""
  | String c s' =>
      (if code c <? 128 then String c ""
       else String (chr (Z.lor 192 (Z.shiftr (code c) 6)))
              (String (chr (Z.lor 128 (Z.land (code c) 63))) ""))
      +:+ utf8 s'
  end.

(** [needle in hay] for two strs. *)
Definition contains (needle hay : string) : Prop :=
  exists pre post, hay = pre +:+ needle +:+ post.

End Py.

(** ** [uuid]: version 4 identifiers and their text form *)

Module Uuid.

(** [UUID(bytes=b, version=4).int]: the 16 bytes read big-endian, then the
    RFC 4122 variant and the version number written over six of the bits. *)
Definition of_random (version : Z) (i : Z) : Z :=
  let i := Z.land i (Z.lnot (Z.shiftl 0xc000 48)) in
  let i := Z.lor i (Z.shiftl 0x8000 48) in
  let i := Z.land i (Z.lnot (Z.shiftl 0xf000 64)) in
  Z.lor i (Z.shiftl version 76).

(** [uuid.uuid4().int], from the 128 bits that [os.urandom(16)] returned. *)
Definition uuid4 (rnd : Z) : Z := of_random 4 (rnd mod 2 ^ 128).

(** [hex[:8]-hex[8:12]-hex[12:16]-hex[16:20]-hex[20:]], on 32 digits. *)
Definition cut (hex : string) : string :=
  substring 0 8 hex +:+ "-" +:+ substring 8 4 hex +:+ "-" +:+
  substring 12 4 hex +:+ "-" +:+ substring 16 4 hex +:+ "-" +:+
  substring 20 12 hex.

(** [str(u)]: the 32 hex digits of ['%032x' % u.int], cut 8-4-4-4-12. *)
Definition str (u : Z) : string := cut (Py.hex_pad 32 u).

End Uuid.

(** ** [os.path.join] (POSIX), two components *)

Module OsPath.

Definition starts_with_sep (s : string) : bool :=
  match s with
  | String c _ => Ascii.eqb c "/"%char
  | "" => false
  end.

Fixpoint ends_with_sep (s : string) : bool :=
  match s with
  | "" => false
  | String c "" => Ascii.eqb c "/"%char
  | String _ s' => ends_with_sep s'
  end.

Definition join (a b : string) : string :=
  if starts_with_sep b then b
  else if String.eqb a "" || ends_with_sep a then a +:+ b
  else a +:+ "/" +:+ b.

End OsPath.

(** ** The slice of [logging] and [contextvars] the logger rests on *)

Module Logging.

Definition NOTSET : Z := 0.
Definition DEBUG : Z := 10.
Definition INFO : Z := 20.
Definition WARNING : Z := 30.
Definition ERROR : Z := 40.
Definition CRITICAL : Z := 50.

(** The current [contextvars.Context]: the variables that were [set],
    by name.  [ContextVar(name, default=None).get()] is [var_get]. *)
Definition var_get (ctx : gmap string Py.value) (name : string) : Py.value :=
  default Py.VNone (ctx !! name).

(** A [LogRecord].  [request_id] and [client_ip] are attributes a filter
    writes onto the record object; they are absent until one does. *)
Record LogRecord := mkRecord {
  r_name : string;
  r_levelno : Z;
  r_msg : string;
  r_request_id : option Py.value;
  r_client_ip : option Py.value;
}.

Inductive Formatter :=
| JsonFormatter (fmt : string)
| ColoredFormatter (fmt : string) (log_colors : list (string * string)).

(** Filter objects; [ContextFilter] is the one class the code defines. *)
Inductive FilterClass := ContextFilter.

Record Filter := mkFilter { f_id : nat; f_class : FilterClass }.

Inductive HandlerClass :=
| RotatingFileHandler (filename : string) (maxBytes backupCount : Z)
| StreamHandler.

(** A handler object; [h_id] is its identity ([hdlr in handlers] compares
    handler objects by identity). *)
Record Handler := mkHandler {
  h_id : nat;
  h_class : HandlerClass;
  h_level : Z;
  h_formatter : option Formatter;
  h_filters : list Filter;
}.

Record Logger := mkLogger {
  l_level : Z;
  l_handlers : list Handler;
  l_propagate : bool;
  l_disabled : bool;
}.

(** Where an emitted record went. *)
Inductive Sink := ToHandler (id : nat) | ToLastResort.

(** The process state the logger code reads and writes. *)
Record World := mkWorld {
  cwd : string;                   (* os.getcwd() *)
  dirs : gset string;             (* directories made so far *)
  next_id : nat;                  (* next fresh object identity *)
  loggers : gmap string Logger;   (* the loggers of Logger.manager.loggerDict *)
  root : Logger;                  (* logging.root *)
  entropy : nat -> Z;             (* the n-th os.urandom(16), as an int *)
  drawn : nat;                    (* how many draws were taken *)
  records : list LogRecord;       (* records created by Logger._log *)
  emitted : list (Sink * LogRecord);  (* records as each sink emitted them *)
}.

Definition set_dirs (f : gset string -> gset string) (w : World) : World :=
  mkWorld (cwd w) (f (dirs w)) (next_id w) (loggers w) (root w)
          (entropy w) (drawn w) (records w) (emitted w).
Definition set_next_id (n : nat) (w : World) : World :=
  mkWorld (cwd w) (dirs w) n (loggers w) (root w)
          (entropy w) (drawn w) (records w) (emitted w).
Definition set_loggers (m : gmap string Logger) (w : World) : World :=
  mkWorld (cwd w) (dirs w) (next_id w) m (root w)
          (entropy w) (drawn w) (records w) (emitted w).
Definition set_drawn (n : nat) (w : World) : World :=
  mkWorld (cwd w) (dirs w) (next_id w) (loggers w) (root w)
          (entropy w) n (records w) (emitted w).
Definition add_record (r : LogRecord) (w : World) : World :=
  mkWorld (cwd w) (dirs w) (next_id w) (loggers w) (root w)
          (entropy w) (drawn w) (records w ++ [r]) (emitted w).
Definition add_emitted (s : Sink) (r : LogRecord) (w : World) : World :=
  mkWorld (cwd w) (dirs w) (next_id w) (loggers w) (root w)
          (entropy w) (drawn w) (records w) (emitted w ++ [(s, r)]).

(** Stateful code: a function of the world that returns a result and the
    world it leaves. *)
Definition M (A : Type) : Type := World -> A * World.
Definition ret {A} (a : A) : M A := fun w => (a, w).
Definition bind {A B} (c : M A) (k : A -> M B) : M B :=
  fun w => let '(a, w') := c w in k a w'.
Definition modify (f : World -> World) : M unit := fun w => (tt, f w).
Definition exec {A} (c : M A) (w : World) : World := snd (c w).
Definition eval {A} (c : M A) (w : World) : A := fst (c w).

Declare Scope py_scope.
Delimit Scope py_scope with py.
Notation "'let*' x ':=' c 'in' k" := (bind c (fun x => k))
  (at level 10, x pattern, c at level 100, k at level 200) : py_scope.
Notation "c ';;' k" := (bind c (fun _ => k))
  (at level 100, k at level 200, right associativity) : py_scope.

(** *** The logger hierarchy *)

(** [name.rfind(".", 0, stop)]: the last index below [stop] that holds a
    dot. *)
Fixpoint rfind_dot (name : string) (stop : nat) : option nat :=
  match stop with
  | O => None
  | S i =>
      match String.get i name with
      | Some c => if Ascii.eqb c "." then Some i else rfind_dot name i
      | None => rfind_dot name i
      end
  end.

(** The names [Manager._fixupParents] visits for a logger called [name],
    in order:
    [i = name.rfind("."); while i > 0: substr = name[:i]; ...;
     i = name.rfind(".", 0, i - 1)].
    [i] gets smaller on every turn, so the length of the name bounds the
    number of turns. *)
Fixpoint dotted_prefixes (turns : nat) (name : string) (i : option nat) : list string :=
  match turns, i with
  | S turns', Some (S j) =>
      String.substring 0 (S j) name :: dotted_prefixes turns' name (rfind_dot name j)
  | _, _ => []
  end.

Definition ancestors (name : string) : list string :=
  dotted_prefixes (String.length name) name (rfind_dot name (String.length name)).

(** The first of [names] that has a logger, with that logger. *)
Fixpoint nearest (names : list string) (m : gmap string Logger) : option (string * Logger) :=
  match names with
  | [] => None
  | a :: rest =>
      match m !! a with
      | Some l => Some (a, l)
      | None => nearest rest m
      end
  end.

(** [logger.parent] of the logger called [name]; [None] is the root.
    The attribute is not stored: [_fixupParents], when a logger is made,
    and [_fixupChildren], when a logger takes the place of a
    [PlaceHolder], keep it equal to the first logger that exists among the
    names [_fixupParents] visits, and to the root when there is none;
    loggers are never removed.  A [PlaceHolder] in [loggerDict] is a name
    without a logger here.  So making a logger re-parents the loggers
    below it that had their parent above it. *)
Definition parent (name : string) (w : World) : option (string * Logger) :=
  nearest (ancestors name) (loggers w).

(** The loggers above the one called [name], from its parent up to the
    root: [c.parent], [c.parent.parent], ...  A parent's name is a proper
    prefix of the child's, which bounds the walk. *)
Fixpoint parents_from (turns : nat) (name : string) (w : World) : list Logger :=
  match turns with
  | O => [root w]
  | S turns' =>
      match parent name w with
      | Some (p, l) => l :: parents_from turns' p w
      | None => [root w]
      end
  end.

Definition parents (name : string) (w : World) : list Logger :=
  parents_from (String.length name) name w.

(** [Logger.manager.disable], the level at and below which
    [logging.disable] silences every logger.  Nothing in the program calls
    [logging.disable]: it keeps its initial value. *)
Definition manager_disable : Z := 0.

(** A new object: hand out the next identity. *)
Definition fresh : M nat :=
  fun w => (next_id w, set_next_id (S (next_id w)) w).

(** [logging.getLogger(name)] for a name other than the root's, that is,
    [Logger.manager.getLogger(name)]: the logger registered under [name],
    made (level NOTSET, no handler, propagating, not disabled) and
    registered on first use.  The result is the reference, that is, the
    name: every caller shares the one object in the registry.  Linking the
    new logger to its parent and its children to it ([_fixupParents],
    [_fixupChildren]) is what [parent] reads off the registry. *)
Definition getLogger (name : string) : M string :=
  fun w =>
    match loggers w !! name with
    | Some _ => (name, w)
    | None =>
        (name, set_loggers (<[name := mkLogger NOTSET [] true false]> (loggers w)) w)
    end.

Definition update_logger (name : string) (f : Logger -> Logger) : M unit :=
  modify (fun w => set_loggers (alter f name (loggers w)) w).

(** [logger.setLevel(level)]. *)
Definition setLevel (name : string) (level : Z) : M unit :=
  update_logger name (fun l =>
    mkLogger level (l_handlers l) (l_propagate l) (l_disabled l)).

Definition handler_in (h : Handler) (hs : list Handler) : bool :=
  existsb (fun h' => Nat.eqb (h_id h) (h_id h')) hs.

(** [logger.addHandler(hdlr)]:
    [if not (hdlr in self.handlers): self.handlers.append(hdlr)]. *)
Definition addHandler (name : string) (h : Handler) : M unit :=
  update_logger name (fun l =>
    if handler_in h (l_handlers l) then l
    else mkLogger (l_level l) (l_handlers l ++ [h]) (l_propagate l) (l_disabled l)).

(** [handler.setFormatter(fmt)] and [handler.addFilter(f)], on a handler
    that is still local to its maker. *)
Definition setFormatter (fmt : Formatter) (h : Handler) : Handler :=
  mkHandler (h_id h) (h_class h) (h_level h) (Some fmt) (h_filters h).

Definition filter_in (f : Filter) (fs : list Filter) : bool :=
  existsb (fun f' => Nat.eqb (f_id f) (f_id f')) fs.

Definition addFilter (f : Filter) (h : Handler) : Handler :=
  if filter_in f (h_filters h) then h
  else mkHandler (h_id h) (h_class h) (h_level h) (h_formatter h) (h_filters h ++ [f]).

End Logging.

(** ** [backend/logger_service/logger.py] *)

Module LoggerService.
Import Logging.
Local Open Scope py_scope.

(** [request_id_ctx] and [client_ip_ctx], the two context variables
    (both with [default=None]). *)
Definition request_id_ctx : string := "request_id".
Definition client_ip_ctx : string := "client_ip".

(** [str(uuid.uuid4())], taking the next draw of the entropy source. *)
Definition str_uuid4 : M string :=
  fun w => (Uuid.str (Uuid.uuid4 (entropy w (drawn w))), set_drawn (S (drawn w)) w).

(** [ContextFilter.filter(record)], run in the context [ctx] of the
    caller.  [or] evaluates its right operand only when the left one is
    falsy, so a draw is taken only then.  The record object is updated in
    place and [True] is returned. *)
Definition ContextFilter_filter (ctx : gmap string Py.value) (record : LogRecord)
  : M (bool * LogRecord) :=
  let bound_id := var_get ctx request_id_ctx in
  let* rid := (if Py.truthy bound_id then ret bound_id
               else let* u := str_uuid4 in ret (Py.VStr u)) in
  let ip := Py.or_ (var_get ctx client_ip_ctx) (Py.VStr "unknown") in
  ret (true, mkRecord (r_name record) (r_levelno record) (r_msg record)
                      (Some rid) (Some ip)).

Definition run_filter (ctx : gmap string Py.value) (f : Filter) (record : LogRecord)
  : M (bool * LogRecord) :=
  match f_class f with
  | ContextFilter => ContextFilter_filter ctx record
  end.

(** [Filterer.filter(record)]: the filters in order, stopping at the
    first that rejects. *)
Fixpoint filterer_filter (ctx : gmap string Py.value) (fs : list Filter)
    (record : LogRecord) : M (bool * LogRecord) :=
  match fs with
  | [] => ret (true, record)
  | f :: fs' =>
      let* (ok, record') := run_filter ctx f record in
      if ok then filterer_filter ctx fs' record' else ret (false, record')
  end.

(** [Handler.handle(record)]: filter, then emit.  What the sink receives
    is the record as it stands after this handler's filters. *)
Definition handle (ctx : gmap string Py.value) (h : Handler) (record : LogRecord)
  : M LogRecord :=
  let* (ok, record') := filterer_filter ctx (h_filters h) record in
  if ok then (modify (add_emitted (ToHandler (h_id h)) record') ;; ret record')
  else ret record'.

(** The loop of [Logger.callHandlers] over one logger's handlers; the
    record object is shared, so each handler sees what the previous one
    left on it. *)
Fixpoint call_each (ctx : gmap string Py.value) (hs : list Handler)
    (record : LogRecord) : M LogRecord :=
  match hs with
  | [] => ret record
  | h :: hs' =>
      let* record' := (if h_level h <=? r_levelno record
                       then handle ctx h record else ret record) in
      call_each ctx hs' record'
  end.

(** The loop of [Logger.callHandlers] up the hierarchy, on the chain
    [c], [c.parent], ... that is left to visit: each logger's handlers in
    turn, stopping after a logger that does not propagate.  The result is
    [found], the number of handlers met, and the record as the handlers
    left it. *)
Fixpoint call_chain (ctx : gmap string Py.value) (chain : list Logger)
    (record : LogRecord) : M (nat * LogRecord) :=
  match chain with
  | [] => ret (0%nat, record)
  | c :: up =>
      let* record' := call_each ctx (l_handlers c) record in
      if l_propagate c then
        let* (found, record'') := call_chain ctx up record' in
        ret ((length (l_handlers c) + found)%nat, record'')
      else ret (length (l_handlers c), record')
  end.

(** [Logger.callHandlers(record)] on the logger [l] called [name]: the
    handlers of the logger and of the loggers above it; the last-resort
    handler (level WARNING, no filter) when no handler was found at all. *)
Definition callHandlers (ctx : gmap string Py.value) (name : string) (l : Logger)
    (record : LogRecord) : M unit :=
  fun w =>
    (let* (found, record') := call_chain ctx (l :: parents name w) record in
     match found with
     | O => if WARNING <=? r_levelno record'
            then modify (add_emitted ToLastResort record') else ret tt
     | S _ => ret tt
     end) w.

(** [Logger.getEffectiveLevel()]: the first level that is set, from the
    logger up to the root; NOTSET when none is. *)
Fixpoint first_level (chain : list Logger) : Z :=
  match chain with
  | [] => NOTSET
  | c :: up => if l_level c =? NOTSET then first_level up else l_level c
  end.

Definition getEffectiveLevel (name : string) (l : Logger) (w : World) : Z :=
  first_level (l :: parents name w).

(** [Logger.isEnabledFor(level)]:
    [if self.disabled: return False],
    [if self.manager.disable >= level: False],
    [else: level >= self.getEffectiveLevel()]. *)
Definition isEnabledFor (name : string) (l : Logger) (level : Z) (w : World) : bool :=
  if l_disabled l then false
  else if level <=? manager_disable then false
  else getEffectiveLevel name l w <=? level.

(** [logger.log(level, msg)], the body shared by [logger.info],
    [logger.warning] and [logger.error]: when the level is enabled, one
    [LogRecord] is made and handed to the handlers. *)
Definition log (ctx : gmap string Py.value) (name : string) (level : Z) (msg : string)
  : M unit :=
  fun w =>
    match loggers w !! name with
    | None => (tt, w)
    | Some l =>
        if isEnabledFor name l level w then
          let record := mkRecord name level msg None None in
          (modify (add_record record) ;; callHandlers ctx name l record) w
        else (tt, w)
    end.

Definition info ctx name msg := log ctx name INFO msg.
Definition warning ctx name msg := log ctx name WARNING msg.
Definition error ctx name msg := log ctx name ERROR msg.

Definition json_format : string :=
  "%(asctime)s %(levelname)s %(name)s %(message)s %(request_id)s %(client_ip)s".
Definition console_format : string :=
  "%(log_color)s%(levelname)s %(asctime)s %(name)s %(message)s [%(request_id)s %(client_ip)s]".
Definition log_colors : list (string * string) :=
  [("DEBUG", "cyan"); ("INFO", "green"); ("WARNING", "yellow");
   ("ERROR", "red"); ("CRITICAL", "bold_red")].

(** [os.path.join(os.path.join(os.getcwd(), "logs"), "app.log")]. *)
Definition base_log_dir (w : World) : string := OsPath.join (cwd w) "logs".
Definition log_file_path (w : World) : string :=
  OsPath.join (base_log_dir w) "app.log".

(** [setup_logger()]. *)
Definition setup_logger : M string :=
  let* base := (fun w => (base_log_dir w, w)) in
  modify (set_dirs (fun d => {[base]} ∪ d)) ;;
  let path := OsPath.join base "app.log" in
  let* logger := getLogger "app" in
  setLevel logger INFO ;;
  let json_formatter := JsonFormatter json_format in
  let console_formatter := ColoredFormatter console_format log_colors in
  let* fid := fresh in
  let file_handler :=
    mkHandler fid (RotatingFileHandler path (10 * 1024 * 1024) 5) NOTSET None [] in
  let file_handler := setFormatter json_formatter file_handler in
  let* cid := fresh in
  let console_handler := mkHandler cid StreamHandler NOTSET None [] in
  let console_handler := setFormatter console_formatter console_handler in
  let* xid := fresh in
  let context_filter := mkFilter xid ContextFilter in
  let file_handler := addFilter context_filter file_handler in
  let console_handler := addFilter context_filter console_handler in
  addHandler logger file_handler ;;
  addHandler logger console_handler ;;
  ret logger.

(** [setup_logger()] called [n] times in a row; the references returned,
    in order. *)
Fixpoint setup_logger_times (n : nat) : M (list string) :=
  match n with
  | O => ret []
  | S n' =>
      let* l := setup_logger in
      let* ls := setup_logger_times n' in
      ret (l :: ls)
  end.

Definition is_file_handler (h : Handler) : bool :=
  match h_class h with RotatingFileHandler _ _ _ => true | StreamHandler => false end.
Definition is_console_handler (h : Handler) : bool :=
  match h_class h with StreamHandler => true | RotatingFileHandler _ _ _ => false end.

(** The handlers on the logger a reference names. *)
Definition handlers_of (name : string) (w : World) : list Handler :=
  match loggers w !! name with
  | Some l => l_handlers l
  | None => []
  end.

(** A process in which [logging] was imported and nothing configured:
    no logger but the root, which has level WARNING and no handler. *)
Definition fresh_world (dir : string) (rnd : nat -> Z) : World :=
  mkWorld dir ∅ 0%nat ∅ (mkLogger WARNING [] true false) rnd 0%nat [] [].

(** The two handlers one call of [setup_logger] builds, as they stand
    when they are added to the logger. *)
Definition new_file_handler (w : World) : Handler :=
  mkHandler (next_id w)
    (RotatingFileHandler (log_file_path w) (10 * 1024 * 1024) 5) NOTSET
    (Some (JsonFormatter json_format))
    [mkFilter (S (S (next_id w))) ContextFilter].

Definition new_console_handler (w : World) : Handler :=
  mkHandler (S (next_id w)) StreamHandler NOTSET
    (Some (ColoredFormatter console_format log_colors))
    [mkFilter (S (S (next_id w))) ContextFilter].

(** *** Predicates used to state the logger's properties *)

(** Exactly one sink set on the logger: one file handler, one console
    handler. *)
Definition one_sink_set (name : string) (w : World) : Prop :=
  length (List.filter is_file_handler (handlers_of name w)) = 1%nat /\
  length (List.filter is_console_handler (handlers_of name w)) = 1%nat.

(** Object identities in use lie below the allocator's next one. *)
Definition ids_below (name : string) (w : World) : Prop :=
  Forall (fun h => (h_id h < next_id w)%nat) (handlers_of name w).

(** Two records passed through the filter, one after the other, in the
    same context. *)
Definition filter_twice (ctx : gmap string Py.value) (r1 r2 : LogRecord)
  : M (LogRecord * LogRecord) :=
  (let* (_, a) := ContextFilter_filter ctx r1 in
   let* (_, b) := ContextFilter_filter ctx r2 in
   ret (a, b))%py.

(** The context binds a truthy request id and a truthy client ip. *)
Definition bound (ctx : gmap string Py.value) (rid ip : Py.value) : Prop :=
  ctx !! request_id_ctx = Some rid /\ Py.truthy rid = true /\
  ctx !! client_ip_ctx = Some ip /\ Py.truthy ip = true.

(** How many file handlers, and how many console handlers, the logger
    "app" has. *)
Definition count_files (w : World) : nat :=
  length (List.filter is_file_handler (handlers_of "app" w)).
Definition count_consoles (w : World) : nat :=
  length (List.filter is_console_handler (handlers_of "app" w)).

(** The record carries this request id and client ip. *)
Definition carries (rid ip : Py.value) (r : LogRecord) : Prop :=
  r_request_id r = Some rid /\ r_client_ip r = Some ip.

(** [w'] differs from [w] at most by entropy drawn and by records
    emitted, and every newly emitted record satisfies [P]. *)
Definition emits (P : LogRecord -> Prop) (w w' : World) : Prop :=
  cwd w' = cwd w /\ dirs w' = dirs w /\ next_id w' = next_id w /\
  loggers w' = loggers w /\ root w' = root w /\ entropy w' = entropy w /\
  records w' = records w /\
  exists new, emitted w' = (emitted w ++ new)%list /\ Forall (fun e => P (snd e)) new.

(** The logger [name] is set up the way [setup_logger] leaves it: it has
    handlers, each with a filter, and the root logger has none. *)
Definition filtered (name : string) (w : World) : Prop :=
  exists l, loggers w !! name = Some l /\
            l_handlers l <> [] /\
            Forall (fun h => h_filters h <> []) (l_handlers l) /\
            l_handlers (root w) = [].

End LoggerService.

(** ** The rotating file sink: [logging.handlers.RotatingFileHandler] *)

Module Rotating.

(** The log directory as the handler sees it, by segment number: segment
    0 is the file it writes ([app.log]), segment [i] is the backup
    [app.log.i].  A missing key is a file that does not exist. *)
Definition segment_name (base : string) (i : nat) : string :=
  match i with
  | O => base
  | _ => base +:+ "." +:+ Py.str_int (Z.of_nat i)
  end.

(** [if os.path.exists(src): (remove dst if it exists;) os.rename(src, dst)]. *)
Definition rename (src dst : nat) (fs : gmap nat string) : gmap nat string :=
  match fs !! src with
  | Some c => <[dst := c]> (delete src fs)
  | None => fs
  end.

(** [for i in range(k, 0, -1): rename(base.i, base.(i+1))]. *)
Fixpoint shift (k : nat) (fs : gmap nat string) : gmap nat string :=
  match k with
  | O => fs
  | S k' => shift k' (rename (S k') (S (S k')) fs)
  end.

(** [doRollover()]: the backups move up by one, [app.log] becomes
    [app.log.1], and a new empty [app.log] is opened.  With
    [backupCount = 0] the file is only reopened (in append mode). *)
Definition doRollover (backupCount : Z) (fs : gmap nat string) : gmap nat string :=
  let fs1 :=
    if 0 <? backupCount then
      rename 0 1 (delete 1%nat (shift (Z.to_nat (backupCount - 1)) fs))
    else fs in
  match fs1 !! 0%nat with
  | Some _ => fs1
  | None => <[0%nat := ""]> fs1
  end.

(** [shouldRollover(record)], on the formatted line [msg]: when the line
    and its terminator would reach [maxBytes].  Newer interpreters never
    roll an empty file over, older ones do: [skip_empty] tells which. *)
Definition shouldRollover (skip_empty : bool) (maxBytes : Z) (fs : gmap nat string)
    (msg : string) : bool :=
  if 0 <? maxBytes then
    let pos := Z.of_nat (String.length (default "" (fs !! 0%nat))) in
    if skip_empty && (pos =? 0) then false
    else maxBytes <=? pos + Z.of_nat (String.length msg) + 1
  else false.

(** [emit(record)]: roll over if due, then append the line. *)
Definition emit (skip_empty : bool) (maxBytes backupCount : Z) (fs : gmap nat string)
    (msg : string) : gmap nat string :=
  let fs1 := if shouldRollover skip_empty maxBytes fs msg
             then doRollover backupCount fs else fs in
  <[0%nat := default "" (fs1 !! 0%nat) +:+ msg +:+ String "010"%char ""]> fs1.

Definition emit_all (skip_empty : bool) (maxBytes backupCount : Z)
    (fs : gmap nat string) (msgs : list string) : gmap nat string :=
  fold_left (emit skip_empty maxBytes backupCount) msgs fs.

(** A log with a small cap after six lines, each of which rolled the
    file over. *)
Definition six_lines_in : gmap nat string :=
  emit_all true 16 5 {[ 0%nat := "started" ]}
    ["first line"; "second line"; "third line"; "fourth line"; "fifth line";
     "sixth line"].

(** The backups present: the segments other than [app.log] itself. *)
Definition backups (fs : gmap nat string) : gmap nat string :=
  filter (fun kv => (0 < kv.1)%nat) fs.

(** No segment beyond the retention count. *)
Definition within (backupCount : Z) (fs : gmap nat string) : Prop :=
  forall i, is_Some (fs !! i) -> Z.of_nat i <= backupCount.

End Rotating.

(** ** [core/error_handler.py]: the API error type *)

Module ErrorHandler.

(** An [APIException] object, with the three attributes the handler and
    the retry loop use. *)
Record APIException := mkAPIException {
  message : string;
  status_code : Z;
  details : Py.value;
}.

(** Modelled from the spec: [core/error_handler.py], the module that
    defines [APIException], is not among the sources; its constructor
    takes the message and, optionally, [status_code] (default 500) and
    [details] (default the empty mapping). *)
Definition APIException_init (message : string) (status_code : option Z)
    (details : option Py.value) : APIException :=
  mkAPIException message (default 500 status_code) (default (Py.VDict []) details).

End ErrorHandler.

(** ** [core/exception_handler.py] and [main.py]: the error-to-response mapper *)

Module Http.

(** What the mapper reads of a request: [request.url.path]. *)
Record Request := mkRequest { url_path : string }.

(** A [JSONResponse(status_code=..., content=...)]. *)
Record JSONResponse := mkJSONResponse {
  resp_status_code : Z;
  resp_content : Py.value;
}.

(** [JSONResponse.render(content)], the bytes of the body. *)
Definition body (r : JSONResponse) : string :=
  Py.utf8 (Py.json_dumps (resp_content r)).

End Http.

Module ExceptionHandler.
Import Logging ErrorHandler Http.
Local Open Scope py_scope.

(** [api_exception_handler(request, exc)] of [core/exception_handler.py];
    [logger] is the module's global, the result of [setup_logger()]. *)
Definition api_exception_handler (ctx : gmap string Py.value) (logger : string)
    (request : Request) (exc : APIException) : M JSONResponse :=
  LoggerService.error ctx logger
    ("Error: " +:+ message exc +:+ " | Path: " +:+ url_path request +:+
     " | Details: " +:+ Py.str (details exc)) ;;
  ret (mkJSONResponse (status_code exc)
         (Py.VDict [("success", Py.VBool false);
                    ("message", Py.VStr (message exc));
                    ("details", details exc)])).

End ExceptionHandler.

Module Main.
Import Logging ErrorHandler Http.
Local Open Scope py_scope.

(** [logger = setup_logger()], run when the module is loaded. *)
Definition load_logger : M string := LoggerService.setup_logger.

(** [api_exception_handler(request, exc)] of [main.py], the one that
    [app.add_exception_handler(APIException, ...)] registers. *)
Definition api_exception_handler (ctx : gmap string Py.value) (logger : string)
    (request : Request) (exc : APIException) : M JSONResponse :=
  LoggerService.error ctx logger
    ("Error: " +:+ message exc +:+ " | Path: " +:+ url_path request +:+
     " | Details: " +:+ Py.str (details exc)) ;;
  ret (mkJSONResponse (status_code exc)
         (Py.VDict [("success", Py.VBool false);
                    ("message", Py.VStr (message exc));
                    ("details", details exc)])).

(** [root()], the handler of [GET /]. *)
Definition root_endpoint : Py.value :=
  Py.VDict [("status", Py.VStr "OpsFlow Auth Service Running")].

End Main.

(** ** [config/database_conn.py]: connecting with retries *)

Module DatabaseConn.
Import Logging ErrorHandler.
Local Open Scope py_scope.

Definition MAX_RETRIES : Z := 3.
Definition RETRY_DELAY : Z := 2.

(** What one call of [psycopg2.connect(url)] can do: return a connection,
    raise [psycopg2.OperationalError], or raise something else. *)
Inductive connect_result :=
| Connection (handle : nat)
| OperationalError (text : string)
| OtherError (text : string).

(** What the outside world saw of the loop, in order. *)
Inductive event :=
| Connect (url : string)
| Sleep (seconds : Z).

(** How the module-level loop ends: [conn] bound (after [break]), an
    [APIException] raised, some other exception let through, or the loop
    running out with [conn] never bound. *)
Inductive outcome :=
| Bound (conn : nat)
| Raised (exc : APIException)
| Propagated (text : string)
| Unbound.

(** [range(1, MAX_RETRIES + 1)]. *)
Definition attempts (max_retries : Z) : list Z :=
  List.map Z.of_nat (seq 1 (Z.to_nat max_retries)).

(** The body of the [for] loop, over the attempts still to make.
    [connect k] is what the [k]-th call of [psycopg2.connect] does. *)
Fixpoint retry_loop (ctx : gmap string Py.value) (logger : string)
    (database_url : string) (connect : Z -> connect_result)
    (max_retries : Z) (todo : list Z) (trace : list event)
  : M (outcome * list event) :=
  match todo with
  | [] => ret (Unbound, trace)
  | attempt :: todo' =>
      LoggerService.info ctx logger
        ("Connecting to the database, attempt " +:+ Py.str_int attempt) ;;
      let trace := (trace ++ [Connect database_url])%list in
      match connect attempt with
      | Connection c =>
          LoggerService.info ctx logger "Database connection successful" ;;
          ret (Bound c, trace)
      | OperationalError e =>
          LoggerService.warning ctx logger
            ("Database connection attempt " +:+ Py.str_int attempt +:+
             " failed: " +:+ e) ;;
          if attempt <? max_retries then
            retry_loop ctx logger database_url connect max_retries todo'
                       (trace ++ [Sleep RETRY_DELAY])%list
          else
            LoggerService.error ctx logger "All database connection attempts failed" ;;
            ret (Raised (APIException_init "Database connection error"
                           (Some 500) (Some (Py.VDict [("error", Py.VStr e)]))),
                 trace)
      | OtherError e => ret (Propagated e, trace)
      end
  end.

(** The module body: [logger = setup_logger()], then the loop. *)
Definition load (ctx : gmap string Py.value) (database_url : string)
    (connect : Z -> connect_result) : M (outcome * list event) :=
  let* logger := LoggerService.setup_logger in
  retry_loop ctx logger database_url connect MAX_RETRIES (attempts MAX_RETRIES) [].

Definition is_connect (e : event) : bool :=
  match e with Connect _ => true | Sleep _ => false end.

(** The number of connection attempts in a trace. *)
Definition connects (trace : list event) : nat :=
  length (List.filter is_connect trace).

End DatabaseConn.

(** ** [logger_service/metrics.py] *)

Module Metrics.

Inductive metric_type := Counter | Histogram | Gauge.

(** An instrument as its constructor call gives it. *)
Record Metric := mkMetric {
  m_type : metric_type;
  m_name : string;
  m_documentation : string;
  m_labelnames : list string;
}.

Definition REQUEST_COUNT : Metric :=
  mkMetric Counter "http_requests_total" "Total HTTP requests"
           ["method"; "path"; "status"].

Definition REQUEST_LATENCY : Metric :=
  mkMetric Histogram "http_request_latency_seconds" "Request latency"
           ["method"; "path"].

Definition IN_PROGRESS : Metric :=
  mkMetric Gauge "http_requests_in_progress" "In-progress HTTP requests" [].

(** The instruments the module defines, in the order it defines them. *)
Definition instruments : list Metric :=
  [REQUEST_COUNT; REQUEST_LATENCY; IN_PROGRESS].

(** [s.endswith(suffix)]. *)
Definition ends_with (suffix s : string) : bool :=
  (String.length suffix <=? String.length s)%nat &&
  String.eqb (substring (String.length s - String.length suffix)
                        (String.length suffix) s) suffix.

(** The name a metric is kept under: a counter drops a final [_total]. *)
Definition base_name (m : Metric) : string :=
  match m_type m with
  | Counter =>
      if ends_with "_total" (m_name m)
      then substring 0 (String.length (m_name m) - 6) (m_name m)
      else m_name m
  | _ => m_name m
  end.

(** The time series names an instrument claims in a registry. *)
Definition series_names (m : Metric) : list string :=
  base_name m ::
  List.map (fun suffix => base_name m +:+ suffix)
    match m_type m with
    | Counter => ["_total"; "_created"]
    | Histogram => ["_bucket"; "_sum"; "_count"; "_created"]
    | Gauge => []
    end.

(** A collector registry: the instruments registered, in order, and the
    names they claimed. *)
Record Registry := mkRegistry {
  collectors : list Metric;
  claimed : gset string;
}.

Definition empty_registry : Registry := mkRegistry [] ∅.

(** [registry.register(collector)]: refused ([ValueError]) when one of the
    names is already claimed. *)
Definition register (m : Metric) (r : Registry) : option Registry :=
  if existsb (fun n => bool_decide (n ∈ claimed r)) (series_names m) then None
  else Some (mkRegistry (collectors r ++ [m])
                        (list_to_set (series_names m) ∪ claimed r)).

(** Loading the module: each constructor registers its instrument. *)
Definition load (r : Registry) : option Registry :=
  foldl (fun acc m => acc ≫= register m) (Some r) instruments.

(** What the process asked of the metrics library. *)
Inductive effect := start_http_server (port : Z).

(** [start_metrics_server()]. *)
Definition start_metrics_server (done : list effect) : list effect :=
  (done ++ [start_http_server 9090])%list.

End Metrics.

(** ** Requests as tasks, each with its own context *)

Module Tasks.
Import Logging.

(** The running tasks and the [contextvars.Context] each one runs in.
    A task with no entry runs in the empty context. *)
Record System := mkSystem {
  world : World;
  contexts : gmap nat (gmap string Py.value);
  next_task : nat;
  (* every emitted record, with the task whose call emitted it *)
  attributed : list (nat * LogRecord);
}.

Definition context_of (s : System) (t : nat) : gmap string Py.value :=
  default ∅ (contexts s !! t).

(** What a task can do between two scheduling points. *)
Inductive action :=
| CtxSet (var : string) (v : Py.value)     (* var.set(v) *)
| Log (level : Z) (msg : string)           (* logger.log(level, msg) *)
| Spawn.                                   (* start a task, in a copy of the context *)

(** One step of task [t]. *)
Definition step (s : System) (ta : nat * action) : System :=
  let '(t, a) := ta in
  match a with
  | CtxSet var v =>
      mkSystem (world s) (<[t := <[var := v]> (context_of s t)]> (contexts s))
               (next_task s) (attributed s)
  | Log level msg =>
      let w' := exec (LoggerService.log (context_of s t) "app" level msg) (world s) in
      let new := skipn (length (emitted (world s))) (emitted w') in
      mkSystem w' (contexts s) (next_task s)
               (attributed s ++ List.map (fun e => (t, snd e)) new)%list
  | Spawn =>
      mkSystem (world s) (<[next_task s := context_of s t]> (contexts s))
               (S (next_task s)) (attributed s)
  end.

(** A schedule: any interleaving of the tasks' steps. *)
Definition run (s : System) (schedule : list (nat * action)) : System :=
  fold_left step schedule s.

(** Task [t] binds nothing during the schedule. *)
Definition read_only (t : nat) (schedule : list (nat * action)) : Prop :=
  forall var v, ~ In (t, CtxSet var v) schedule.

(** The records task [t] emitted. *)
Definition records_of (t : nat) (s : System) : list LogRecord :=
  List.map snd (List.filter (fun e => Nat.eqb (fst e) t) (attributed s)).

(** What holds of a task [t] that keeps its bindings while others run:
    the logger stays set up, [t]'s context binds [rid] and [ip], and every
    record [t] emitted carries them. *)
Definition isolated (t : nat) (rid ip : Py.value) (s : System) : Prop :=
  LoggerService.filtered "app" (world s) /\
  LoggerService.bound (context_of s t) rid ip /\
  (t < next_task s)%nat /\
  Forall (LoggerService.carries rid ip) (records_of t s).

(** Two requests in flight, each in its own task, after [setup_logger]. *)
Definition two_requests : System :=
  mkSystem (exec LoggerService.setup_logger
                 (LoggerService.fresh_world "/srv/app" (fun _ => 0)))
           (<[0%nat := <["request_id" := Py.VStr "req-1"]>
                         (<["client_ip" := Py.VStr "10.0.0.1"]> ∅)]>
              (<[1%nat := <["request_id" := Py.VStr "req-2"]>
                            (<["client_ip" := Py.VStr "10.0.0.2"]> ∅)]> ∅))
           2 [].

(** An interleaving of the two, with a third task started on the way. *)
Definition overlapping : list (nat * action) :=
  [(0%nat, Log ERROR "first of req-1"); (1%nat, Log INFO "first of req-2");
   (1%nat, Spawn); (2%nat, CtxSet "request_id" (Py.VStr "req-3"));
   (2%nat, Log WARNING "child of req-2"); (0%nat, Log INFO "second of req-1");
   (1%nat, Log ERROR "second of req-2")].

End Tasks.

(** ** Worked examples *)

Module Examples.
Import ErrorHandler DatabaseConn.

(** A string between double quotes. *)
Definition q (s : string) : string := String Py.dquote s +:+ String Py.dquote "".

(** The database connection error and the JSON body it must be mapped to. *)
Definition example_error : APIException :=
  APIException_init "Database connection error" (Some 500)
    (Some (Py.VDict [("error", Py.VStr "timeout")])).

Definition example_body : string :=
  "{" +:+ q "success" +:+ ":false," +:+ q "message" +:+ ":" +:+
  q "Database connection error" +:+ "," +:+ q "details" +:+ ":{" +:+
  q "error" +:+ ":" +:+ q "timeout" +:+ "}}".

(** A database that never answers, and one that answers the third call. *)
Definition always_failing (k : Z) : connect_result := OperationalError "timeout".
Definition third_time_lucky (k : Z) : connect_result :=
  if k <? 3 then OperationalError "connection refused" else Connection 7.

End Examples.

(** ** What runs leave behind: counts and shapes used in the statements *)

Module Observations.
Import Logging LoggerService DatabaseConn.

Definition is_sleep (e : event) : bool :=
  match e with Sleep _ => true | Connect _ => false end.

(** The number of sleeps in a trace. *)
Definition sleeps (trace : list event) : nat :=
  length (List.filter is_sleep trace).

(** The loop of [database_conn.py] with a cap of [n] attempts, started
    from the first attempt with an empty trace. *)
Definition retry (ctx : gmap string Py.value) (logger url : string)
    (connect : Z -> connect_result) (n : nat) : M (outcome * list event) :=
  retry_loop ctx logger url connect (Z.of_nat n) (attempts (Z.of_nat n)) [].

(** A process in which [logging.getLogger("app.x")] was called before the
    logger "app" exists. *)
Definition child_before_app : World :=
  exec (getLogger "app.x") (fresh_world "/srv/app" (fun _ => 0)).

(** A connector that fails for a reason that is not operational. *)
Definition bad_dsn (k : Z) : connect_result := OtherError "invalid dsn".

(** The sinks a record goes to when every handler takes it. *)
Definition sinks_of (hs : list Handler) : list Sink :=
  List.map (fun h => ToHandler (h_id h)) hs.

(** The logger "app" exists, has level INFO and is not disabled: the state
    [setup_logger] leaves it in, unless it was disabled before. *)
Definition app_ready (w : World) : Prop :=
  exists l, loggers w !! "app" = Some l /\ l_level l = INFO /\ l_disabled l = false.

(** A sequence of logging calls on one logger, from one context. *)
Definition log_all (ctx : gmap string Py.value) (name : string)
    (calls : list (Z * string)) (w : World) : World :=
  fold_left (fun w c => exec (log ctx name (fst c) (snd c)) w) calls w.

(** The record [Logger._log] makes for a call. *)
Definition record_of (name : string) (c : Z * string) : LogRecord :=
  mkRecord name (fst c) (snd c) None None.

(** [r'] is the record of the same call as [r]: same logger name, level
    and message; only the attributes a filter sets may differ. *)
Definition same_call (r r' : LogRecord) : Prop :=
  r_name r' = r_name r /\ r_levelno r' = r_levelno r /\ r_msg r' = r_msg r.

(** The record a handler emits for a call made with no request id bound,
    when the filter takes draw number [n] of the entropy source. *)
Definition default_id_record (ctx : gmap string Py.value) (w : World) (n : nat)
    (name : string) (level : Z) (msg : string) : LogRecord :=
  mkRecord name level msg
    (Some (Py.VStr (Uuid.str (Uuid.uuid4 (entropy w n)))))
    (Some (Py.or_ (var_get ctx client_ip_ctx) (Py.VStr "unknown"))).

(** Starting [main.py].  Its line 2 imports [config.database_conn], which
    runs that module: its own [logger = setup_logger()], then the loop.
    When that leaves [conn] bound, line 11 runs [logger = setup_logger()]
    and the result is that logger; otherwise the import ends with the
    exception and the rest of [main.py] never runs. *)
Definition main_startup (ctx : gmap string Py.value) (url : string)
    (connect : Z -> connect_result) : M (option string) :=
  bind (DatabaseConn.load ctx url connect) (fun r =>
    match fst r with
    | Bound _ => bind setup_logger (fun logger => ret (Some logger))
    | _ => ret None
    end).

(** The default registry once [metrics.py] has been loaded into an empty
    one. *)
Definition loaded_registry : Metrics.Registry :=
  Metrics.mkRegistry Metrics.instruments
    (list_to_set (concat (List.map Metrics.series_names Metrics.instruments))).

End Observations.

(** * Properties *)

(** ** Running stateful code *)

Module MonadFacts.
Import Logging.

Lemma run_bind {A B} (c : M A) (k : A -> M B) w :
  bind c k w = k (eval c w) (exec c w).
Proof. unfold bind, eval, exec. destruct (c w); reflexivity. Qed.

Lemma eval_bind {A B} (c : M A) (k : A -> M B) w :
  eval (bind c k) w = eval (k (eval c w)) (exec c w).
Proof. unfold eval at 1. rewrite run_bind. reflexivity. Qed.

Lemma exec_bind {A B} (c : M A) (k : A -> M B) w :
  exec (bind c k) w = exec (k (eval c w)) (exec c w).
Proof. unfold exec at 1. rewrite run_bind. reflexivity. Qed.

Lemma eval_ret {A} (a : A) w : eval (ret a) w = a.
Proof. reflexivity. Qed.

Lemma exec_ret {A} (a : A) w : exec (ret a) w = w.
Proof. reflexivity. Qed.

Lemma run_pair {A} (c : M A) w : c w = (eval c w, exec c w).
Proof. unfold eval, exec. destruct (c w); reflexivity. Qed.

End MonadFacts.

(** ** Strings *)

Module StringFacts.

Lemma append_cons (x : ascii) (a b : string) : String x a +:+ b = String x (a +:+ b).
Proof. reflexivity. Qed.

Lemma append_nil_l (a : string) : "" +:+ a = a.
Proof. reflexivity. Qed.

Lemma append_assoc (a b c : string) : (a +:+ b) +:+ c = a +:+ (b +:+ c).
Proof.
  induction a as [|x a IH]; [reflexivity|].
  rewrite !append_cons. f_equal. exact IH.
Qed.

Lemma append_nil_r (a : string) : a +:+ "" = a.
Proof.
  induction a as [|x a IH]; [reflexivity|].
  rewrite !append_cons. f_equal. exact IH.
Qed.

Lemma length_append (a b : string) :
  String.length (a +:+ b) = (String.length a + String.length b)%nat.
Proof.
  induction a as [|x a IH]; [reflexivity|].
  rewrite append_cons. simpl. f_equal. exact IH.
Qed.

Lemma contains_middle (pre needle post : string) :
  Py.contains needle (pre +:+ needle +:+ post).
Proof. exists pre, post. reflexivity. Qed.

End StringFacts.

(** ** Version 4 identifiers and their text *)

Module UuidFacts.
Import StringFacts.

Lemma fits_of_range n a :
  0 <= n -> 0 <= a < 2 ^ n -> forall i, n <= i -> Z.testbit a i = false.
Proof.
  intros Hn Ha i Hi. rewrite <- (Z.mod_small a (2 ^ n)) by lia.
  apply Z.mod_pow2_bits_high. lia.
Qed.

Lemma range_of_fits n a :
  0 <= n -> 0 <= a -> (forall i, n <= i -> Z.testbit a i = false) -> 0 <= a < 2 ^ n.
Proof.
  intros Hn Ha Hbits.
  assert (E : a mod 2 ^ n = a).
  { rewrite <- Z.land_ones by lia. apply Z.bits_inj'. intros i Hi.
    rewrite Z.land_spec. destruct (Z.lt_ge_cases i n) as [Hlt|Hge].
    - rewrite Z.ones_spec_low by lia. apply andb_true_r.
    - rewrite Z.ones_spec_high by lia. rewrite Hbits by lia. reflexivity. }
  rewrite <- E. apply Z.mod_pos_bound. lia.
Qed.

Lemma land_range n a m : 0 <= n -> 0 <= a < 2 ^ n -> 0 <= Z.land a m < 2 ^ n.
Proof.
  intros Hn Ha. apply range_of_fits; [lia | apply Z.land_nonneg; lia |].
  intros i Hi. rewrite Z.land_spec, (fits_of_range n a) by lia. reflexivity.
Qed.

Lemma lor_range n a b :
  0 <= n -> 0 <= a < 2 ^ n -> 0 <= b < 2 ^ n -> 0 <= Z.lor a b < 2 ^ n.
Proof.
  intros Hn Ha Hb. apply range_of_fits; [lia | apply Z.lor_nonneg; lia |].
  intros i Hi. rewrite Z.lor_spec, (fits_of_range n a), (fits_of_range n b) by lia.
  reflexivity.
Qed.

Lemma uuid4_range rnd : 0 <= Uuid.uuid4 rnd < 2 ^ 128.
Proof.
  unfold Uuid.uuid4, Uuid.of_random.
  apply lor_range; [lia| |vm_compute; split; [discriminate | reflexivity]].
  apply land_range; [lia|].
  apply lor_range; [lia| |vm_compute; split; [discriminate | reflexivity]].
  apply land_range; [lia|].
  apply Z.mod_pos_bound. reflexivity.
Qed.

Lemma hex_digit_inj a b :
  0 <= a < 16 -> 0 <= b < 16 -> Py.hex_digit a = Py.hex_digit b -> a = b.
Proof.
  intros Ha Hb.
  assert (Ea : a = 0 \/ a = 1 \/ a = 2 \/ a = 3 \/ a = 4 \/ a = 5 \/ a = 6 \/ a = 7 \/
               a = 8 \/ a = 9 \/ a = 10 \/ a = 11 \/ a = 12 \/ a = 13 \/ a = 14 \/ a = 15) by lia.
  assert (Eb : b = 0 \/ b = 1 \/ b = 2 \/ b = 3 \/ b = 4 \/ b = 5 \/ b = 6 \/ b = 7 \/
               b = 8 \/ b = 9 \/ b = 10 \/ b = 11 \/ b = 12 \/ b = 13 \/ b = 14 \/ b = 15) by lia.
  repeat (destruct Ea as [Ea|Ea]); subst a;
    repeat (destruct Eb as [Eb|Eb]); subst b;
    intros H; first [reflexivity | (vm_compute in H; discriminate H)].
Qed.

Lemma length_hex_pad k : forall n, String.length (Py.hex_pad k n) = k.
Proof.
  induction k as [|k IH]; intros n; [reflexivity|].
  cbn [Py.hex_pad]. rewrite length_append, IH. simpl. lia.
Qed.

Lemma append_single_inj s1 : forall s2 c1 c2,
  s1 +:+ String c1 "" = s2 +:+ String c2 "" -> s1 = s2 /\ c1 = c2.
Proof.
  induction s1 as [|x s1 IH]; intros [|y s2] c1 c2 H.
  - injection H as ->. auto.
  - rewrite append_cons in H. cbn in H. injection H as _ H. destruct s2; discriminate H.
  - rewrite append_cons in H. cbn in H. injection H as _ H. destruct s1; discriminate H.
  - rewrite !append_cons in H. injection H as -> H.
    destruct (IH _ _ _ H) as [-> ->]. auto.
Qed.

Lemma hex_pad_inj k : forall n m,
  0 <= n < 16 ^ Z.of_nat k -> 0 <= m < 16 ^ Z.of_nat k ->
  Py.hex_pad k n = Py.hex_pad k m -> n = m.
Proof.
  induction k as [|k IH]; intros n m Hn Hm H.
  - simpl in Hn, Hm. lia.
  - cbn [Py.hex_pad] in H. apply append_single_inj in H as [Hhi Hlo].
    rewrite Nat2Z.inj_succ, Z.pow_succ_r in Hn, Hm by lia.
    apply IH in Hhi; [| split; [apply Z.div_pos; lia | apply Z.div_lt_upper_bound; lia] ..].
    apply hex_digit_inj in Hlo; [| apply Z.mod_pos_bound; lia ..].
    rewrite (Z.div_mod n 16), (Z.div_mod m 16) by lia. congruence.
Qed.

Lemma length_S_inv (s : string) n :
  String.length s = S n -> exists c s', s = String c s' /\ String.length s' = n.
Proof. destruct s as [|c s']; [discriminate|]. intros [= H]. eauto. Qed.

Lemma length_0_inv (s : string) : String.length s = 0%nat -> s = "".
Proof. destruct s; [reflexivity | discriminate]. Qed.

Ltac explode h H :=
  repeat (let c := fresh "c" in let t := fresh "t" in let E := fresh "E" in
          apply length_S_inv in H as (c & t & E & H); subst h; rename t into h);
  apply length_0_inv in H; subst h.

Lemma cut_inj h1 h2 :
  String.length h1 = 32%nat -> String.length h2 = 32%nat ->
  Uuid.cut h1 = Uuid.cut h2 -> h1 = h2.
Proof.
  intros L1 L2. explode h1 L1. explode h2 L2.
  unfold Uuid.cut. cbn [substring]. rewrite !append_cons, !append_nil_l.
  intros H. inversion H. reflexivity.
Qed.

Lemma length_cut h : String.length h = 32%nat -> String.length (Uuid.cut h) = 36%nat.
Proof. intros L. explode h L. reflexivity. Qed.

Lemma uuid_str_inj a b :
  Uuid.str (Uuid.uuid4 a) = Uuid.str (Uuid.uuid4 b) -> Uuid.uuid4 a = Uuid.uuid4 b.
Proof.
  intros H. unfold Uuid.str in H.
  apply cut_inj in H; [| apply length_hex_pad ..].
  apply hex_pad_inj in H; [exact H | apply uuid4_range ..].
Qed.

Lemma length_uuid_str u : String.length (Uuid.str u) = 36%nat.
Proof. apply (length_cut (Py.hex_pad 32 u)), length_hex_pad. Qed.

End UuidFacts.

(** ** What a logging call changes *)

Module LoggingFacts.
Import Logging LoggerService MonadFacts.

Lemma emits_refl P w : emits P w w.
Proof.
  unfold emits. repeat split. exists []. split; [symmetry; apply app_nil_r | constructor].
Qed.

Lemma emits_trans P w1 w2 w3 : emits P w1 w2 -> emits P w2 w3 -> emits P w1 w3.
Proof.
  intros (a1 & a2 & a3 & a4 & a5 & a6 & a7 & n1 & e1 & f1)
         (b1 & b2 & b3 & b4 & b5 & b6 & b7 & n2 & e2 & f2).
  unfold emits. repeat split; try congruence.
  exists (n1 ++ n2)%list. split.
  - rewrite e2, e1. symmetry. apply app_assoc.
  - apply Forall_app; auto.
Qed.

Lemma emits_add_emitted (P : LogRecord -> Prop) s r w : P r -> emits P w (add_emitted s r w).
Proof.
  intros HP. unfold emits. repeat split.
  exists [(s, r)]. split; [reflexivity | repeat constructor; exact HP].
Qed.

Lemma emits_set_drawn P n w : emits P w (set_drawn n w).
Proof.
  unfold emits. repeat split. exists []. split; [symmetry; apply app_nil_r | constructor].
Qed.


Lemma filter_emits P ctx record w :
  emits P w (exec (ContextFilter_filter ctx record) w).
Proof.
  unfold ContextFilter_filter, exec, bind, ret, str_uuid4.
  destruct (Py.truthy (var_get ctx request_id_ctx)); simpl.
  - apply emits_refl.
  - apply emits_set_drawn.
Qed.

Lemma filterer_emits P ctx fs : forall record w,
  emits P w (exec (filterer_filter ctx fs record) w).
Proof.
  induction fs as [|f fs IH]; intros record w; simpl.
  - apply emits_refl.
  - unfold exec, bind. destruct f as [i []]. unfold run_filter; simpl.
    destruct (ContextFilter_filter ctx record w) as [[ok r'] w'] eqn:E.
    assert (Hw : emits P w w').
    { pose proof (filter_emits P ctx record w) as H. unfold exec in H. rewrite E in H. exact H. }
    destruct ok.
    + eapply emits_trans; [exact Hw|]. apply IH.
    + exact Hw.
Qed.

Lemma handle_emits ctx h record w :
  emits (fun _ => True) w (exec (handle ctx h record) w).
Proof.
  unfold handle, exec, bind.
  destruct (filterer_filter ctx (h_filters h) record w) as [[ok r'] w'] eqn:E.
  assert (Hw : emits (fun _ => True) w w').
  { pose proof (filterer_emits (fun _ => True) ctx (h_filters h) record w) as H.
    unfold exec in H. rewrite E in H. exact H. }
  destruct ok; simpl.
  - eapply emits_trans; [exact Hw|]. apply emits_add_emitted. exact I.
  - exact Hw.
Qed.


Lemma call_each_emits ctx hs : forall record w,
  emits (fun _ => True) w (exec (call_each ctx hs record) w).
Proof.
  induction hs as [|h hs IH]; intros record w; simpl.
  - apply emits_refl.
  - rewrite exec_bind. eapply emits_trans; [|apply IH].
    destruct (h_level h <=? r_levelno record).
    + apply handle_emits.
    + apply emits_refl.
Qed.

Lemma parents_top name w : ancestors name = [] -> parents name w = [root w].
Proof.
  intros Ha. unfold parents. destruct (String.length name); [reflexivity|].
  cbn [parents_from]. unfold parent. rewrite Ha. reflexivity.
Qed.

Lemma call_chain_emits ctx chain : forall record w,
  emits (fun _ => True) w (exec (call_chain ctx chain record) w).
Proof.
  induction chain as [|c up IH]; intros record w; cbn [call_chain].
  - apply emits_refl.
  - rewrite exec_bind.
    eapply emits_trans; [apply call_each_emits|].
    destruct (l_propagate c); [|apply emits_refl].
    rewrite exec_bind. eapply emits_trans; [apply IH|].
    destruct (eval (call_chain ctx up _) _). apply emits_refl.
Qed.

Lemma callHandlers_emits ctx name l record w :
  emits (fun _ => True) w (exec (callHandlers ctx name l record) w).
Proof.
  unfold callHandlers. unfold exec at 1. cbv beta. rewrite run_bind.
  eapply emits_trans; [apply call_chain_emits|].
  destruct (eval (call_chain ctx _ record) w) as [[|found] r].
  - destruct (WARNING <=? _).
    + apply emits_add_emitted. exact I.
    + apply emits_refl.
  - apply emits_refl.
Qed.

(** A logger right below the root, when the root has no handler: the
    logger's own handlers are all there is. *)
Lemma call_chain_top ctx l r record w :
  l_handlers r = [] ->
  call_chain ctx [l; r] record w =
    ((length (l_handlers l), eval (call_each ctx (l_handlers l) record) w),
     exec (call_each ctx (l_handlers l) record) w).
Proof.
  intros Hr. cbn [call_chain]. rewrite Hr. cbn [call_each length].
  unfold bind, eval, exec, ret.
  destruct (call_each ctx (l_handlers l) record w) as [r1 w1]. cbn [fst snd].
  destruct (l_propagate l); [|reflexivity].
  destruct (l_propagate r); cbn; rewrite ?Nat.add_0_r; reflexivity.
Qed.

Lemma callHandlers_own ctx name l record w :
  ancestors name = [] ->
  l_handlers l <> [] ->
  l_handlers (root w) = [] ->
  exec (callHandlers ctx name l record) w = exec (call_each ctx (l_handlers l) record) w.
Proof.
  intros Ha Hne Hroot. unfold callHandlers. unfold exec at 1. cbv beta.
  rewrite (parents_top name w Ha). unfold bind.
  rewrite (call_chain_top ctx l (root w) record w Hroot).
  destruct (l_handlers l) as [|h hs]; [congruence|]. reflexivity.
Qed.

Lemma log_enabled ctx name level msg l w :
  loggers w !! name = Some l ->
  isEnabledFor name l level w = true ->
  emits (fun _ => True) (add_record (mkRecord name level msg None None) w)
        (exec (log ctx name level msg) w).
Proof.
  intros Hl He. unfold log, exec. rewrite Hl, He.
  rewrite run_bind. apply callHandlers_emits.
Qed.

Lemma log_disabled ctx name level msg l w :
  loggers w !! name = Some l ->
  isEnabledFor name l level w = false ->
  exec (log ctx name level msg) w = w.
Proof. intros Hl He. unfold log, exec. rewrite Hl, He. reflexivity. Qed.

End LoggingFacts.

(** ** The context filter *)

Module ContextFilterFacts.
Import Logging LoggerService MonadFacts.

Lemma filter_unbound_id ctx record w :
  Py.truthy (var_get ctx request_id_ctx) = false ->
  ContextFilter_filter ctx record w =
    ((true, mkRecord (r_name record) (r_levelno record) (r_msg record)
              (Some (Py.VStr (Uuid.str (Uuid.uuid4 (entropy w (drawn w))))))
              (Some (Py.or_ (var_get ctx client_ip_ctx) (Py.VStr "unknown")))),
     set_drawn (S (drawn w)) w).
Proof.
  intros H. unfold ContextFilter_filter. rewrite H. reflexivity.
Qed.

Lemma filter_bound_id ctx record w :
  Py.truthy (var_get ctx request_id_ctx) = true ->
  ContextFilter_filter ctx record w =
    ((true, mkRecord (r_name record) (r_levelno record) (r_msg record)
              (Some (var_get ctx request_id_ctx))
              (Some (Py.or_ (var_get ctx client_ip_ctx) (Py.VStr "unknown")))),
     w).
Proof.
  intros H. unfold ContextFilter_filter. rewrite H. reflexivity.
Qed.

(** C5, as stated, fails: a client ip bound to the empty string is not
    used; the record gets "unknown". *)
Lemma bound_empty_client_ip_not_used :
  ~ (forall ctx record w v,
        ctx !! client_ip_ctx = Some v ->
        r_client_ip (snd (eval (ContextFilter_filter ctx record) w)) = Some v).
Proof.
  intros H.
  specialize (H {[ client_ip_ctx := Py.VStr "" ]}
                (mkRecord "app" INFO "request served" None None)
                (fresh_world "/srv/app" (fun _ => 0)) (Py.VStr "")
                (lookup_singleton_eq _ _)).
  vm_compute in H. discriminate H.
Qed.

(** C5, amended.  The filter always accepts the record and leaves on it:
    as client ip, "unknown" when none is bound, the bound value when it is
    truthy (a non-empty string), and "unknown" again when the bound value
    is falsy (None, the empty string); as request id, the text of a version
    4 UUID made from the next draw of the entropy source (36 characters)
    when none is bound or the bound value is falsy, and the bound value,
    with no draw taken, when it is truthy. *)
Theorem context_filter_defaults ctx record w :
  fst (eval (ContextFilter_filter ctx record) w) = true /\
  (ctx !! client_ip_ctx = None ->
     r_client_ip (snd (eval (ContextFilter_filter ctx record) w))
       = Some (Py.VStr "unknown")) /\
  (ctx !! request_id_ctx = None ->
     r_request_id (snd (eval (ContextFilter_filter ctx record) w))
       = Some (Py.VStr (Uuid.str (Uuid.uuid4 (entropy w (drawn w))))) /\
     String.length (Uuid.str (Uuid.uuid4 (entropy w (drawn w)))) = 36%nat /\
     drawn (exec (ContextFilter_filter ctx record) w) = S (drawn w)) /\
  (forall v, ctx !! client_ip_ctx = Some v ->
     r_client_ip (snd (eval (ContextFilter_filter ctx record) w))
       = Some (if Py.truthy v then v else Py.VStr "unknown")) /\
  (forall v, ctx !! request_id_ctx = Some v -> Py.truthy v = true ->
     r_request_id (snd (eval (ContextFilter_filter ctx record) w)) = Some v /\
     drawn (exec (ContextFilter_filter ctx record) w) = drawn w) /\
  (forall v, ctx !! request_id_ctx = Some v -> Py.truthy v = false ->
     r_request_id (snd (eval (ContextFilter_filter ctx record) w))
       = Some (Py.VStr (Uuid.str (Uuid.uuid4 (entropy w (drawn w))))) /\
     drawn (exec (ContextFilter_filter ctx record) w) = S (drawn w)).
Proof.
  assert (Hip : r_client_ip (snd (eval (ContextFilter_filter ctx record) w))
                = Some (Py.or_ (var_get ctx client_ip_ctx) (Py.VStr "unknown"))).
  { unfold eval. destruct (Py.truthy (var_get ctx request_id_ctx)) eqn:E.
    - rewrite filter_bound_id by exact E. reflexivity.
    - rewrite filter_unbound_id by exact E. reflexivity. }
  split; [|split; [|split; [|split; [|split]]]].
  - unfold eval. destruct (Py.truthy (var_get ctx request_id_ctx)) eqn:E.
    + rewrite filter_bound_id by exact E. reflexivity.
    + rewrite filter_unbound_id by exact E. reflexivity.
  - intros Hnone. rewrite Hip. unfold var_get. rewrite Hnone. reflexivity.
  - intros Hnone.
    assert (E : Py.truthy (var_get ctx request_id_ctx) = false)
      by (unfold var_get; rewrite Hnone; reflexivity).
    unfold eval, exec. rewrite filter_unbound_id by exact E.
    split; [reflexivity | split; [apply UuidFacts.length_uuid_str | reflexivity]].
  - intros v Hv. rewrite Hip. unfold var_get. rewrite Hv. reflexivity.
  - intros v Hv Ht.
    assert (E : Py.truthy (var_get ctx request_id_ctx) = true)
      by (unfold var_get; rewrite Hv; exact Ht).
    unfold eval, exec. rewrite filter_bound_id by exact E.
    unfold var_get. rewrite Hv. split; reflexivity.
  - intros v Hv Hf.
    assert (E : Py.truthy (var_get ctx request_id_ctx) = false)
      by (unfold var_get; rewrite Hv; exact Hf).
    unfold eval, exec. rewrite filter_unbound_id by exact E.
    split; reflexivity.
Qed.

Lemma context_filter_defaults_witness :
  r_client_ip
    (snd (eval (ContextFilter_filter {[ request_id_ctx := Py.VStr "req-1" ]}
                  (mkRecord "app" INFO "request served" None None))
               (fresh_world "/srv/app" (fun _ => 0))))
    = Some (Py.VStr "unknown") /\
  r_request_id
    (snd (eval (ContextFilter_filter {[ request_id_ctx := Py.VStr "req-1" ]}
                  (mkRecord "app" INFO "request served" None None))
               (fresh_world "/srv/app" (fun _ => 0))))
    = Some (Py.VStr "req-1").
Proof.
  destruct (context_filter_defaults {[ request_id_ctx := Py.VStr "req-1" ]}
              (mkRecord "app" INFO "request served" None None)
              (fresh_world "/srv/app" (fun _ => 0)))
    as (_ & Hip & _ & _ & Hid & _).
  split.
  - apply Hip. reflexivity.
  - apply (Hid (Py.VStr "req-1")); reflexivity.
Defined.

(** C10.  With no request id bound, the filter takes a new draw for every
    record it is given: two records filtered one after the other get the
    UUIDs of two successive draws, and their request ids differ exactly
    when those two UUIDs differ. *)
Theorem default_request_id_per_record ctx r1 r2 w :
  ctx !! request_id_ctx = None ->
  r_request_id (fst (eval (filter_twice ctx r1 r2) w))
    = Some (Py.VStr (Uuid.str (Uuid.uuid4 (entropy w (drawn w))))) /\
  r_request_id (snd (eval (filter_twice ctx r1 r2) w))
    = Some (Py.VStr (Uuid.str (Uuid.uuid4 (entropy w (S (drawn w)))))) /\
  drawn (exec (filter_twice ctx r1 r2) w) = S (S (drawn w)) /\
  (Uuid.uuid4 (entropy w (drawn w)) <> Uuid.uuid4 (entropy w (S (drawn w))) <->
   r_request_id (fst (eval (filter_twice ctx r1 r2) w))
     <> r_request_id (snd (eval (filter_twice ctx r1 r2) w))).
Proof.
  intros Hnone.
  assert (E : Py.truthy (var_get ctx request_id_ctx) = false)
    by (unfold var_get; rewrite Hnone; reflexivity).
  unfold filter_twice, eval, exec.
  rewrite run_bind. unfold eval, exec. rewrite filter_unbound_id by exact E.
  cbn [fst snd]. rewrite run_bind. unfold eval, exec.
  rewrite filter_unbound_id by exact E.
  cbn [fst snd ret r_request_id drawn entropy set_drawn].
  split; [reflexivity | split; [reflexivity | split; [reflexivity | split]]].
  - intros Hne Heq. apply Hne. apply UuidFacts.uuid_str_inj. congruence.
  - intros Hne Heq. apply Hne. rewrite Heq. reflexivity.
Qed.

Lemma default_request_id_per_record_witness :
  r_request_id
    (fst (eval (filter_twice ∅ (mkRecord "app" INFO "first" None None)
                  (mkRecord "app" INFO "second" None None))
               (fresh_world "/srv/app" Z.of_nat)))
  <> r_request_id
    (snd (eval (filter_twice ∅ (mkRecord "app" INFO "first" None None)
                  (mkRecord "app" INFO "second" None None))
               (fresh_world "/srv/app" Z.of_nat))).
Proof.
  destruct (default_request_id_per_record ∅ (mkRecord "app" INFO "first" None None)
              (mkRecord "app" INFO "second" None None)
              (fresh_world "/srv/app" Z.of_nat) (lookup_empty _)) as (_ & _ & _ & Hiff).
  apply Hiff. vm_compute. discriminate.
Defined.

End ContextFilterFacts.

(** ** Requests do not see each other's context *)

Module IsolationFacts.
Import Logging LoggerService Tasks MonadFacts LoggingFacts ContextFilterFacts.

Section Bound.
Context (ctx : gmap string Py.value) (rid ip : Py.value).
Hypothesis Hbound : bound ctx rid ip.

Lemma filter_bound record w :
  ContextFilter_filter ctx record w =
    ((true, mkRecord (r_name record) (r_levelno record) (r_msg record)
              (Some rid) (Some ip)), w).
Proof.
  destruct Hbound as (Hr & Htr & Hi & Hti).
  rewrite filter_bound_id; unfold var_get; rewrite Hr; [|exact Htr].
  rewrite Hi. unfold Py.or_. simpl. rewrite Hti. reflexivity.
Qed.

Lemma filterer_bound fs : forall record w,
  exists record',
    filterer_filter ctx fs record w = ((true, record'), w) /\
    (fs <> [] \/ carries rid ip record -> carries rid ip record').
Proof.
  induction fs as [|f fs IH]; intros record w.
  - exists record. split; [reflexivity|]. intros [H|H]; [congruence | exact H].
  - cbn [filterer_filter]. rewrite run_bind.
    destruct f as [i []]. unfold run_filter, eval, exec. cbn [f_class].
    rewrite filter_bound. cbn [fst snd].
    destruct (IH (mkRecord (r_name record) (r_levelno record) (r_msg record)
                    (Some rid) (Some ip)) w) as (r' & Hrun & Hcar).
    exists r'. split; [exact Hrun|].
    intros _. apply Hcar. right. split; reflexivity.
Qed.

Lemma handle_bound h record w :
  h_filters h <> [] ->
  emits (carries rid ip) w (exec (handle ctx h record) w) /\
  carries rid ip (eval (handle ctx h record) w).
Proof.
  intros Hne. unfold handle, exec, eval. rewrite run_bind.
  destruct (filterer_bound (h_filters h) record w) as (r' & Hrun & Hcar).
  unfold eval, exec. rewrite Hrun. cbn [fst snd].
  rewrite run_bind. cbn.
  split; [apply emits_add_emitted|]; apply Hcar; left; exact Hne.
Qed.

Lemma call_each_bound hs : forall record w,
  Forall (fun h => h_filters h <> []) hs ->
  emits (carries rid ip) w (exec (call_each ctx hs record) w).
Proof.
  induction hs as [|h hs IH]; intros record w Hall.
  - apply emits_refl.
  - inversion Hall as [|? ? Hh Hhs]; subst.
    cbn [call_each]. rewrite exec_bind.
    eapply emits_trans; [|apply IH; exact Hhs].
    destruct (h_level h <=? r_levelno record).
    + apply handle_bound. exact Hh.
    + apply emits_refl.
Qed.

Lemma callHandlers_bound name l record w :
  ancestors name = [] ->
  l_handlers l <> [] ->
  Forall (fun h => h_filters h <> []) (l_handlers l) ->
  l_handlers (root w) = [] ->
  emits (carries rid ip) w (exec (callHandlers ctx name l record) w).
Proof.
  intros Ha Hne Hall Hroot. rewrite (callHandlers_own ctx name l record w Ha Hne Hroot).
  apply call_each_bound. exact Hall.
Qed.

Lemma log_bound name level msg w :
  ancestors name = [] ->
  filtered name w ->
  loggers (exec (log ctx name level msg) w) = loggers w /\
  root (exec (log ctx name level msg) w) = root w /\
  exists new,
    emitted (exec (log ctx name level msg) w) = (emitted w ++ new)%list /\
    Forall (fun e => carries rid ip (snd e)) new.
Proof.
  intros Ha (l & Hl & Hne & Hall & Hroot). unfold log, exec. rewrite Hl.
  destruct (isEnabledFor name l level w).
  - rewrite run_bind.
    destruct (callHandlers_bound name l (mkRecord name level msg None None)
                (add_record (mkRecord name level msg None None) w) Ha Hne Hall Hroot)
      as (_ & _ & _ & Hlog & Hr & _ & _ & new & Hem & Hnew).
    unfold exec in Hlog, Hr, Hem. split; [exact Hlog|]. split; [exact Hr|].
    exists new. split; [exact Hem | exact Hnew].
  - cbn. repeat split. exists []. split; [symmetry; apply app_nil_r | constructor].
Qed.

End Bound.

Lemma log_frame ctx name level msg w :
  loggers (exec (log ctx name level msg) w) = loggers w /\
  root (exec (log ctx name level msg) w) = root w /\
  exists new, emitted (exec (log ctx name level msg) w) = (emitted w ++ new)%list.
Proof.
  destruct (loggers w !! name) as [l|] eqn:Hl.
  - destruct (isEnabledFor name l level w) eqn:He.
    + destruct (log_enabled ctx name level msg l w Hl He)
        as (_ & _ & _ & Hlog & Hr & _ & _ & new & Hem & _).
      split; [exact Hlog|]. split; [exact Hr|]. exists new. exact Hem.
    + rewrite (log_disabled ctx name level msg l w Hl He).
      repeat split. exists []. symmetry. apply app_nil_r.
  - unfold log, exec. rewrite Hl. cbn.
    repeat split. exists []. symmetry. apply app_nil_r.
Qed.

Lemma filtered_frame name w w' :
  loggers w' = loggers w -> root w' = root w -> filtered name w -> filtered name w'.
Proof.
  intros Hl Hr (l & Hlook & Hne & Hall & Hroot).
  exists l. rewrite Hl, Hr. auto.
Qed.

Lemma skipn_emitted {A} (old new : list A) : skipn (length old) (old ++ new)%list = new.
Proof. induction old as [|x old IH]; [reflexivity | exact IH]. Qed.

Lemma records_of_app t att1 att2 w c n :
  records_of t (mkSystem w c n (att1 ++ att2)%list) =
  (records_of t (mkSystem w c n att1) ++
   List.map snd (List.filter (fun e => Nat.eqb (fst e) t) att2))%list.
Proof. unfold records_of. cbn [attributed]. rewrite List.filter_app, List.map_app. reflexivity. Qed.

Lemma step_isolated t rid ip s t' a :
  (forall var v, (t', a) <> (t, CtxSet var v)) ->
  isolated t rid ip s -> isolated t rid ip (step s (t', a)).
Proof.
  intros Hro (Hf & Hb & Hlt & Hrec). destruct a as [var v | level msg |]; cbn [step].
  - assert (Hne : t' <> t) by (intros ->; exact (Hro var v eq_refl)).
    unfold isolated, context_of in *. cbn [world contexts next_task].
    rewrite lookup_insert_ne by exact Hne.
    split; [exact Hf | split; [exact Hb | split; [exact Hlt | exact Hrec]]].
  - destruct (log_frame (context_of s t') "app" level msg (world s))
      as (Hl & Hr & new & Hem).
    unfold isolated. cbn [world next_task].
    split; [eapply filtered_frame; eassumption|].
    split; [exact Hb|]. split; [exact Hlt|].
    rewrite Hem, skipn_emitted.
    destruct s as [w c n att]. rewrite records_of_app.
    apply Forall_app. split; [exact Hrec|].
    destruct (Nat.eq_dec t' t) as [->|Hne].
    + destruct (log_bound _ rid ip Hb "app" level msg w eq_refl Hf) as (_ & _ & new' & Hem' & Hnew).
      cbn [world] in Hem. rewrite Hem' in Hem. apply app_inv_head in Hem. subst new'.
      clear -Hnew. induction Hnew as [|e new He _ IH]; cbn.
      * constructor.
      * rewrite Nat.eqb_refl. cbn. constructor; [exact He | exact IH].
    + replace (List.filter _ _) with (@nil (nat * LogRecord)); [constructor|].
      clear -Hne. induction new as [|e new IH]; cbn; [reflexivity|].
      apply Nat.eqb_neq in Hne. rewrite Hne. exact IH.
  - unfold isolated, context_of in *. cbn [world contexts next_task].
    rewrite lookup_insert_ne by lia.
    split; [exact Hf | split; [exact Hb | split; [lia | exact Hrec]]].
Qed.

Lemma run_isolated t rid ip schedule : forall s,
  read_only t schedule ->
  isolated t rid ip s -> isolated t rid ip (run s schedule).
Proof.
  induction schedule as [|[t' a] schedule IH]; intros s Hro Hinv; [exact Hinv|].
  cbn [run fold_left]. apply IH.
  - intros var v Hin. apply (Hro var v). right. exact Hin.
  - apply step_isolated; [|exact Hinv].
    intros var v Heq. apply (Hro var v). left. exact Heq.
Qed.

(** C6.  Two requests run as two tasks, each with its own request id and
    client ip bound in its context, the two request ids distinct.  Under
    any interleaving of steps of these and of other tasks (binding their own
    variables, logging, starting tasks) in which the two do not rebind,
    every record a request emits carries that request's id and client ip,
    and never the other request's id. *)
Theorem context_isolation s schedule t1 t2 rid1 ip1 rid2 ip2 :
  filtered "app" (world s) ->
  (t1 < next_task s)%nat -> (t2 < next_task s)%nat ->
  bound (context_of s t1) rid1 ip1 ->
  bound (context_of s t2) rid2 ip2 ->
  rid1 <> rid2 ->
  read_only t1 schedule -> read_only t2 schedule ->
  attributed s = [] ->
  Forall (fun r => carries rid1 ip1 r /\ r_request_id r <> Some rid2)
         (records_of t1 (run s schedule)) /\
  Forall (fun r => carries rid2 ip2 r /\ r_request_id r <> Some rid1)
         (records_of t2 (run s schedule)).
Proof.
  intros Hf Hlt1 Hlt2 Hb1 Hb2 Hne Hro1 Hro2 Hnil.
  assert (H1 : isolated t1 rid1 ip1 s).
  { split; [exact Hf | split; [exact Hb1 | split; [exact Hlt1|]]].
    unfold records_of. rewrite Hnil. constructor. }
  assert (H2 : isolated t2 rid2 ip2 s).
  { split; [exact Hf | split; [exact Hb2 | split; [exact Hlt2|]]].
    unfold records_of. rewrite Hnil. constructor. }
  apply (run_isolated _ _ _ schedule s Hro1) in H1 as (_ & _ & _ & H1).
  apply (run_isolated _ _ _ schedule s Hro2) in H2 as (_ & _ & _ & H2).
  split.
  - eapply Forall_impl; [exact H1|]. intros r Hc. split; [exact Hc|].
    destruct Hc as [Hc _]. rewrite Hc. congruence.
  - eapply Forall_impl; [exact H2|]. intros r Hc. split; [exact Hc|].
    destruct Hc as [Hc _]. rewrite Hc. congruence.
Qed.

Lemma context_isolation_witness :
  Forall (fun r => carries (Py.VStr "req-1") (Py.VStr "10.0.0.1") r /\
                   r_request_id r <> Some (Py.VStr "req-2"))
         (records_of 0 (run two_requests overlapping)) /\
  Forall (fun r => carries (Py.VStr "req-2") (Py.VStr "10.0.0.2") r /\
                   r_request_id r <> Some (Py.VStr "req-1"))
         (records_of 1 (run two_requests overlapping)).
Proof.
  apply (context_isolation two_requests overlapping 0 1).
  - exists (mkLogger INFO (handlers_of "app" (world two_requests)) true false).
    split; [vm_compute; reflexivity|].
    split; [vm_compute; discriminate|].
    split; [|reflexivity].
    vm_compute. repeat constructor; discriminate.
  - cbn. lia.
  - cbn. lia.
  - repeat split; reflexivity.
  - repeat split; reflexivity.
  - discriminate.
  - intros var v Hin. cbn in Hin. intuition discriminate.
  - intros var v Hin. cbn in Hin. intuition discriminate.
  - reflexivity.
Defined.

End IsolationFacts.

(** ** The API error type and the mapper's response *)

Module MapperFacts.
Import Logging ErrorHandler Http MonadFacts Examples.

(** The two copies of the handler are the same function. *)
Lemma handlers_agree ctx logger request exc :
  ExceptionHandler.api_exception_handler ctx logger request exc =
  Main.api_exception_handler ctx logger request exc.
Proof. reflexivity. Qed.

Lemma handler_response ctx logger request exc w :
  eval (Main.api_exception_handler ctx logger request exc) w =
  mkJSONResponse (status_code exc)
    (Py.VDict [("success", Py.VBool false);
               ("message", Py.VStr (message exc));
               ("details", details exc)]).
Proof. unfold Main.api_exception_handler. rewrite eval_bind. reflexivity. Qed.

(** C1.  For every APIException the mapper returns a response whose status
    is the exception's [status_code] and whose JSON content is the object
    with [success] false, [message] the exception's message and [details]
    its details, in both copies of the handler; for the database
    connection error of the example the status is 500 and the body is the
    JSON text of that object. *)
Theorem mapper_response :
  (forall ctx logger request exc w,
      resp_status_code (eval (Main.api_exception_handler ctx logger request exc) w)
        = status_code exc /\
      resp_content (eval (Main.api_exception_handler ctx logger request exc) w)
        = Py.VDict [("success", Py.VBool false);
                    ("message", Py.VStr (message exc));
                    ("details", details exc)] /\
      eval (ExceptionHandler.api_exception_handler ctx logger request exc) w
        = eval (Main.api_exception_handler ctx logger request exc) w) /\
  (forall ctx logger request w,
      resp_status_code
        (eval (Main.api_exception_handler ctx logger request example_error) w) = 500 /\
      resp_content
        (eval (Main.api_exception_handler ctx logger request example_error) w)
        = Py.VDict [("success", Py.VBool false);
                    ("message", Py.VStr "Database connection error");
                    ("details", Py.VDict [("error", Py.VStr "timeout")])] /\
      body (eval (Main.api_exception_handler ctx logger request example_error) w)
        = example_body).
Proof.
  split; intros.
  - rewrite handler_response. repeat split.
    change (ExceptionHandler.api_exception_handler ctx logger request exc)
      with (Main.api_exception_handler ctx logger request exc).
    apply handler_response.
  - rewrite handler_response. repeat split; reflexivity.
Qed.

(** C7.  When the logger "app" is enabled for ERROR (as [setup_logger]
    leaves it), handling an APIException creates exactly one log record, on
    the logger "app" and at level ERROR, whose message contains the
    exception's message, the request's path and the exception's details;
    the JSON error response is what the handler then returns. *)
Theorem mapper_logs_once ctx request exc l w :
  loggers w !! "app" = Some l ->
  LoggerService.isEnabledFor "app" l ERROR w = true ->
  exists msg,
    records (exec (Main.api_exception_handler ctx "app" request exc) w)
      = (records w ++ [mkRecord "app" ERROR msg None None])%list /\
    Py.contains (message exc) msg /\
    Py.contains (url_path request) msg /\
    Py.contains (Py.str (details exc)) msg /\
    eval (Main.api_exception_handler ctx "app" request exc) w
      = mkJSONResponse (status_code exc)
          (Py.VDict [("success", Py.VBool false);
                     ("message", Py.VStr (message exc));
                     ("details", details exc)]).
Proof.
  intros Hl He.
  exists ("Error: " +:+ message exc +:+ " | Path: " +:+ url_path request +:+
          " | Details: " +:+ Py.str (details exc)).
  split; [|split; [|split; [|split]]].
  - unfold Main.api_exception_handler. rewrite exec_bind, exec_ret.
    destruct (LoggingFacts.log_enabled ctx "app" ERROR
                ("Error: " +:+ message exc +:+ " | Path: " +:+ url_path request +:+
                 " | Details: " +:+ Py.str (details exc)) l w Hl He)
      as (_ & _ & _ & _ & _ & _ & Hrec & _).
    exact Hrec.
  - apply StringFacts.contains_middle.
  - rewrite <- (StringFacts.append_assoc (message exc)).
    rewrite <- (StringFacts.append_assoc "Error: ").
    apply StringFacts.contains_middle.
  - exists ("Error: " +:+ message exc +:+ " | Path: " +:+ url_path request +:+
            " | Details: "), "".
    rewrite StringFacts.append_nil_r, !StringFacts.append_assoc.
    reflexivity.
  - apply handler_response.
Qed.

Lemma mapper_logs_once_witness :
  length (records (exec (Main.api_exception_handler ∅ "app" (mkRequest "/login")
                           example_error)
                        (exec LoggerService.setup_logger
                              (LoggerService.fresh_world "/srv/app" (fun _ => 0)))))
  = 1%nat.
Proof.
  destruct (mapper_logs_once ∅ (mkRequest "/login") example_error
              (mkLogger INFO
                 (LoggerService.handlers_of "app"
                    (exec LoggerService.setup_logger
                          (LoggerService.fresh_world "/srv/app" (fun _ => 0))))
                 true false)
              (exec LoggerService.setup_logger
                    (LoggerService.fresh_world "/srv/app" (fun _ => 0))))
    as (msg & Hrec & _).
  - vm_compute. reflexivity.
  - vm_compute. reflexivity.
  - rewrite Hrec. reflexivity.
Defined.

(** C4.  An APIException built from a message alone has status code 500
    and the empty mapping as details. *)
Theorem api_exception_defaults (msg : string) :
  message (APIException_init msg None None) = msg /\
  status_code (APIException_init msg None None) = 500 /\
  details (APIException_init msg None None) = Py.VDict [].
Proof. repeat split. Qed.

End MapperFacts.

(** ** Setting the logger up, once and again *)

Module SetupFacts.
Import Logging LoggerService MonadFacts.

Lemma handler_in_fresh h hs n :
  Forall (fun h' => (h_id h' < n)%nat) hs -> (n <= h_id h)%nat -> handler_in h hs = false.
Proof.
  intros Hall Hle. unfold handler_in.
  induction Hall as [|h' hs Hlt _ IH]; simpl; [reflexivity|].
  rewrite IH, orb_false_r. apply Nat.eqb_neq. lia.
Qed.

Lemma setup_logger_handlers w :
  ids_below "app" w ->
  handlers_of "app" (exec setup_logger w) =
    (handlers_of "app" w ++ [new_file_handler w; new_console_handler w])%list /\
  next_id (exec setup_logger w) = S (S (S (next_id w))) /\
  eval setup_logger w = "app".
Proof.
  intros Hids. unfold ids_below, handlers_of in Hids.
  unfold setup_logger, exec, eval, bind, modify, fresh, getLogger, setLevel, addHandler,
    update_logger, ret, handlers_of. simpl.
  destruct (loggers w !! "app") as [l|] eqn:Hl; simpl.
  - rewrite !lookup_alter_eq, Hl. simpl.
    rewrite (handler_in_fresh _ (l_handlers l) (next_id w)); [|exact Hids|simpl; lia].
    simpl.
    rewrite (handler_in_fresh _ _ (S (next_id w))).
    + simpl. rewrite <- app_assoc. auto.
    + apply Forall_app. split.
      * eapply Forall_impl; [exact Hids|]. simpl. intros; lia.
      * repeat constructor.
    + simpl. lia.
  - rewrite !lookup_alter_eq, lookup_insert_eq. simpl.
    assert (E : forall n, match n with
                          | 0%nat => false
                          | S m' => (n =? m')%nat
                          end = false).
    { intros [|n]; [reflexivity | apply Nat.eqb_neq; lia]. }
    rewrite E. simpl. auto.
Qed.

Lemma setup_logger_ids_below w :
  ids_below "app" w -> ids_below "app" (exec setup_logger w).
Proof.
  intros Hids. destruct (setup_logger_handlers w Hids) as (Hh & Hn & _).
  unfold ids_below in *. rewrite Hh, Hn. apply Forall_app. split.
  - eapply Forall_impl; [exact Hids|]. simpl. intros; lia.
  - repeat constructor; simpl; lia.
Qed.

Lemma setup_logger_counts w :
  ids_below "app" w ->
  count_files (exec setup_logger w) = S (count_files w) /\
  count_consoles (exec setup_logger w) = S (count_consoles w).
Proof.
  intros Hids. destruct (setup_logger_handlers w Hids) as (Hh & _ & _).
  unfold count_files, count_consoles. rewrite Hh, !List.filter_app, !length_app.
  cbn [List.filter is_file_handler is_console_handler new_file_handler
       new_console_handler h_class length].
  lia.
Qed.

Lemma setup_logger_times_counts n : forall w,
  ids_below "app" w ->
  eval (setup_logger_times n) w = repeat "app" n /\
  count_files (exec (setup_logger_times n) w) = (count_files w + n)%nat /\
  count_consoles (exec (setup_logger_times n) w) = (count_consoles w + n)%nat.
Proof.
  induction n as [|n IH]; intros w Hids.
  - simpl. rewrite exec_ret, !Nat.add_0_r. auto.
  - cbn [setup_logger_times].
    rewrite eval_bind, eval_bind, exec_bind, exec_bind, eval_ret, exec_ret.
    destruct (setup_logger_handlers w Hids) as (_ & _ & Happ).
    destruct (setup_logger_counts w Hids) as (Hf & Hc).
    destruct (IH _ (setup_logger_ids_below w Hids)) as (He & Hf' & Hc').
    rewrite Happ, He, Hf', Hc', Hf, Hc. simpl. repeat split; lia.
Qed.

(** C3, as stated, fails: after two calls the logger has two file handlers
    and two console handlers. *)
Lemma setup_logger_twice_duplicates :
  ~ one_sink_set "app"
      (exec (setup_logger_times 2) (fresh_world "/srv/app" (fun _ => 0))).
Proof. unfold one_sink_set. vm_compute. intros [H _]. discriminate H. Qed.

(** C3, amended.  On a logger "app" that has no handler yet, [n] calls of
    [setup_logger] all return the same logger and leave [n] file handlers
    and [n] console handlers on it: each call adds one of each.  There is
    exactly one sink set if and only if [n = 1]. *)
Theorem setup_logger_adds_handlers_each_call n w :
  handlers_of "app" w = [] ->
  eval (setup_logger_times n) w = repeat "app" n /\
  length (List.filter is_file_handler
            (handlers_of "app" (exec (setup_logger_times n) w))) = n /\
  length (List.filter is_console_handler
            (handlers_of "app" (exec (setup_logger_times n) w))) = n /\
  (one_sink_set "app" (exec (setup_logger_times n) w) <-> n = 1%nat).
Proof.
  intros Hnone.
  assert (Hids : ids_below "app" w) by (unfold ids_below; rewrite Hnone; constructor).
  destruct (setup_logger_times_counts n w Hids) as (He & Hf & Hc).
  unfold count_files, count_consoles in Hf, Hc. rewrite Hnone in Hf, Hc.
  simpl in Hf, Hc. unfold one_sink_set. rewrite Hf, Hc. repeat split; auto; tauto.
Qed.

Lemma setup_logger_adds_handlers_each_call_witness :
  length (List.filter is_file_handler
            (handlers_of "app"
               (exec (setup_logger_times 3) (fresh_world "/srv/app" (fun _ => 0)))))
  = 3%nat.
Proof.
  destruct (setup_logger_adds_handlers_each_call 3
              (fresh_world "/srv/app" (fun _ => 0)) eq_refl) as (_ & Hfiles & _).
  exact Hfiles.
Defined.

End SetupFacts.

(** ** The rotating log file *)

Module RotatingFacts.
Import Logging LoggerService Rotating StringFacts MonadFacts.

Lemma rename_lookup src dst (fs : gmap nat string) j :
  rename src dst fs !! j =
    match fs !! src with
    | Some c => if decide (j = dst) then Some c
                else if decide (j = src) then None else fs !! j
    | None => fs !! j
    end.
Proof.
  unfold rename. destruct (fs !! src) as [c|] eqn:E; [|reflexivity].
  destruct (decide (j = dst)) as [->|Hd].
  - apply lookup_insert_eq.
  - rewrite lookup_insert_ne by congruence.
    destruct (decide (j = src)) as [->|Hs].
    + apply lookup_delete_eq.
    + apply lookup_delete_ne. congruence.
Qed.

Lemma shift_above k : forall (fs : gmap nat string) j,
  (S k < j)%nat -> shift k fs !! j = fs !! j.
Proof.
  induction k as [|k IH]; intros fs j Hj; [reflexivity|].
  cbn [shift]. rewrite IH by lia. rewrite rename_lookup.
  destruct (fs !! S k); [|reflexivity].
  repeat case_decide; try lia. reflexivity.
Qed.

Lemma shift_zero k : forall (fs : gmap nat string), shift k fs !! 0%nat = fs !! 0%nat.
Proof.
  induction k as [|k IH]; intros fs; [reflexivity|].
  cbn [shift]. rewrite IH, rename_lookup.
  destruct (fs !! S k); [|reflexivity].
  repeat case_decide; try lia. reflexivity.
Qed.

Lemma shift_one k : forall (fs : gmap nat string),
  (1 <= k)%nat -> shift k fs !! 1%nat = None.
Proof.
  induction k as [|k IH]; intros fs Hk; [lia|].
  cbn [shift]. destruct k as [|k].
  - cbn [shift]. rewrite rename_lookup.
    destruct (fs !! 1%nat) eqn:E; [|reflexivity].
    repeat case_decide; try lia. reflexivity.
  - apply IH. lia.
Qed.

Lemma shift_moves k : forall (fs : gmap nat string) i c,
  (1 <= i <= k)%nat -> fs !! i = Some c -> shift k fs !! S i = Some c.
Proof.
  induction k as [|k IH]; intros fs i c Hi Hc; [lia|].
  cbn [shift]. destruct (decide (i = S k)) as [->|Hne].
  - rewrite shift_above by lia. rewrite rename_lookup, Hc.
    case_decide; [reflexivity | lia].
  - apply IH; [lia|]. rewrite rename_lookup.
    destruct (fs !! S k); [|exact Hc].
    repeat case_decide; try lia. exact Hc.
Qed.

Lemma rename_within bc src dst (fs : gmap nat string) :
  Z.of_nat dst <= bc -> within bc fs -> within bc (rename src dst fs).
Proof.
  intros Hd Hw i [c Hi]. rewrite rename_lookup in Hi.
  destruct (fs !! src) eqn:E.
  - repeat case_decide; subst; try lia; try discriminate. apply Hw. eauto.
  - apply Hw. eauto.
Qed.

Lemma shift_within bc k : forall (fs : gmap nat string),
  Z.of_nat (S k) <= bc -> within bc fs -> within bc (shift k fs).
Proof.
  induction k as [|k IH]; intros fs Hk Hw; [exact Hw|].
  cbn [shift]. apply IH; [lia|]. apply rename_within; [lia | exact Hw].
Qed.

Lemma delete_within bc i (fs : gmap nat string) :
  within bc fs -> within bc (delete i fs).
Proof.
  intros Hw j [c Hj]. apply Hw. exists c.
  destruct (decide (j = i)) as [->|Hne].
  - rewrite lookup_delete_eq in Hj. discriminate.
  - rewrite lookup_delete_ne in Hj by congruence. exact Hj.
Qed.

Lemma insert_zero_within bc c (fs : gmap nat string) :
  0 <= bc -> within bc fs -> within bc (<[0%nat := c]> fs).
Proof.
  intros Hbc Hw j [d Hj]. destruct (decide (j = 0%nat)) as [->|Hne]; [lia|].
  rewrite lookup_insert_ne in Hj by congruence. apply Hw. eauto.
Qed.

Lemma doRollover_within bc (fs : gmap nat string) :
  0 <= bc -> within bc fs -> within bc (doRollover bc fs).
Proof.
  intros Hbc Hw. unfold doRollover.
  assert (H1 : within bc (if 0 <? bc
                          then rename 0 1 (delete 1%nat (shift (Z.to_nat (bc - 1)) fs))
                          else fs)).
  { destruct (0 <? bc) eqn:E; [|exact Hw]. apply Z.ltb_lt in E.
    apply rename_within; [lia|]. apply delete_within. apply shift_within; [lia | exact Hw]. }
  destruct (_ !! 0%nat); [exact H1|]. apply insert_zero_within; assumption.
Qed.

Lemma emit_within se mb bc (fs : gmap nat string) msg :
  0 <= bc -> within bc fs -> within bc (emit se mb bc fs msg).
Proof.
  intros Hbc Hw. unfold emit. apply insert_zero_within; [exact Hbc|].
  destruct (shouldRollover se mb fs msg); [apply doRollover_within|]; assumption.
Qed.

Lemma emit_all_within se mb bc msgs : forall (fs : gmap nat string),
  0 <= bc -> within bc fs -> within bc (emit_all se mb bc fs msgs).
Proof.
  induction msgs as [|m msgs IH]; intros fs Hbc Hw; [exact Hw|].
  cbn [emit_all fold_left]. apply IH; [exact Hbc|]. apply emit_within; assumption.
Qed.

Lemma backups_size bc (fs : gmap nat string) :
  0 <= bc -> within bc fs -> (size (backups fs) <= Z.to_nat bc)%nat.
Proof.
  intros Hbc Hw. rewrite <- size_dom.
  assert (Hsub : dom (backups fs) ⊆ (list_to_set (seq 1 (Z.to_nat bc)) : gset nat)).
  { intros i Hi. apply elem_of_dom in Hi as [c Hc].
    unfold backups in Hc. apply map_lookup_filter_Some in Hc as [Hc Hpos].
    cbn in Hpos. apply elem_of_list_to_set, list_elem_of_In, in_seq.
    specialize (Hw i (ex_intro _ c Hc)). lia. }
  apply subseteq_size in Hsub.
  rewrite size_list_to_set in Hsub by (apply NoDup_ListNoDup, seq_NoDup).
  rewrite length_seq in Hsub. exact Hsub.
Qed.

Lemma doRollover_moves bc (fs : gmap nat string) i c :
  Z.of_nat i < bc -> fs !! i = Some c -> doRollover bc fs !! S i = Some c.
Proof.
  intros Hi Hc. unfold doRollover.
  assert (E : (0 <? bc) = true) by (apply Z.ltb_lt; lia). rewrite E.
  set (fs1 := rename 0 1 (delete 1%nat (shift (Z.to_nat (bc - 1)) fs))).
  assert (H1 : fs1 !! S i = Some c).
  { unfold fs1. rewrite rename_lookup.
    rewrite lookup_delete_ne by lia. rewrite shift_zero.
    destruct i as [|i].
    - rewrite Hc. case_decide; [reflexivity | lia].
    - assert (Hs : delete 1%nat (shift (Z.to_nat (bc - 1)) fs) !! S (S i) = Some c).
      { rewrite lookup_delete_ne by lia. apply shift_moves; [lia | exact Hc]. }
      destruct (fs !! 0%nat); [|exact Hs].
      repeat case_decide; try lia. exact Hs. }
  destruct (fs1 !! 0%nat); [exact H1|].
  rewrite lookup_insert_ne by lia. exact H1.
Qed.

Lemma doRollover_fresh bc (fs : gmap nat string) :
  0 < bc -> doRollover bc fs !! 0%nat = Some "".
Proof.
  intros Hbc. unfold doRollover.
  assert (E : (0 <? bc) = true) by (apply Z.ltb_lt; lia). rewrite E.
  set (fs1 := rename 0 1 (delete 1%nat (shift (Z.to_nat (bc - 1)) fs))).
  assert (H0 : fs1 !! 0%nat = None).
  { unfold fs1. rewrite rename_lookup.
    rewrite lookup_delete_ne by lia. rewrite shift_zero.
    destruct (fs !! 0%nat) eqn:E0.
    - repeat case_decide; try lia. reflexivity.
    - reflexivity. }
  rewrite H0. apply lookup_insert_eq.
Qed.

Lemma emit_under_cap se mb bc (fs : gmap nat string) msg :
  0 < bc -> Z.of_nat (String.length msg) + 1 < mb ->
  exists c, emit se mb bc fs msg !! 0%nat = Some c /\ Z.of_nat (String.length c) < mb.
Proof.
  intros Hbc Hfit. unfold emit. eexists. split; [apply lookup_insert_eq|].
  rewrite !length_append. cbn [String.length].
  destruct (shouldRollover se mb fs msg) eqn:Hs.
  - rewrite doRollover_fresh by exact Hbc. cbn. lia.
  - unfold shouldRollover in Hs.
    assert (E : (0 <? mb) = true) by (apply Z.ltb_lt; lia). rewrite E in Hs.
    destruct (se && (Z.of_nat (String.length (default "" (fs !! 0%nat))) =? 0)) eqn:Hz.
    + apply andb_true_iff in Hz as [_ Hz]. apply Z.eqb_eq in Hz. lia.
    + apply Z.leb_gt in Hs. lia.
Qed.

Lemma ends_with_sep_cons c s : s <> "" -> OsPath.ends_with_sep (String c s) = OsPath.ends_with_sep s.
Proof. destruct s; [congruence | reflexivity]. Qed.

Lemma ends_with_sep_app a b : b <> "" -> OsPath.ends_with_sep (a +:+ b) = OsPath.ends_with_sep b.
Proof.
  intros Hb. induction a as [|c a IH]; [reflexivity|].
  rewrite append_cons, ends_with_sep_cons; [exact IH|].
  destruct a; [exact Hb | discriminate].
Qed.

Lemma join_dir_file x :
  OsPath.join (x +:+ "logs") "app.log" = x +:+ "logs/app.log".
Proof.
  unfold OsPath.join. cbn [OsPath.starts_with_sep Ascii.eqb Bool.eqb].
  rewrite ends_with_sep_app by discriminate.
  replace (String.eqb (x +:+ "logs") "") with false.
  - cbn. rewrite append_assoc. reflexivity.
  - symmetry. apply String.eqb_neq. destruct x; discriminate.
Qed.

Lemma log_file_path_eq w :
  LoggerService.log_file_path w =
    (if String.eqb (Logging.cwd w) "" || OsPath.ends_with_sep (Logging.cwd w)
     then Logging.cwd w else Logging.cwd w +:+ "/") +:+ "logs/app.log".
Proof.
  unfold LoggerService.log_file_path, LoggerService.base_log_dir.
  unfold OsPath.join at 2. cbn [OsPath.starts_with_sep Ascii.eqb Bool.eqb].
  destruct (String.eqb (Logging.cwd w) "" || OsPath.ends_with_sep (Logging.cwd w)).
  - apply join_dir_file.
  - rewrite <- append_assoc. apply join_dir_file.
Qed.

Lemma shouldRollover_iff se mb (fs : gmap nat string) msg :
  0 < mb ->
  shouldRollover se mb fs msg = true <->
  (se = false \/ String.length (default "" (fs !! 0%nat)) <> 0%nat) /\
  mb <= Z.of_nat (String.length (default "" (fs !! 0%nat)))
        + Z.of_nat (String.length msg) + 1.
Proof.
  intros Hmb. unfold shouldRollover.
  assert (E : (0 <? mb) = true) by (apply Z.ltb_lt; lia). rewrite E.
  destruct se; cbn [andb].
  - destruct (Z.of_nat (String.length (default "" (fs !! 0%nat))) =? 0) eqn:Hz.
    + apply Z.eqb_eq in Hz. split; [discriminate|]. intros [[Hf|Hn] _]; [discriminate | lia].
    + apply Z.eqb_neq in Hz. rewrite Z.leb_le.
      split; [intros; split; [right; lia | lia] | tauto].
  - rewrite Z.leb_le. split; [intros; split; [left; reflexivity | lia] | tauto].
Qed.

Lemma emit_appends se mb bc (fs : gmap nat string) msg :
  shouldRollover se mb fs msg = false ->
  emit se mb bc fs msg
    = <[0%nat := default "" (fs !! 0%nat) +:+ msg +:+ String "010"%char ""]> fs.
Proof. intros Hs. unfold emit. rewrite Hs. reflexivity. Qed.

Lemma emit_rolls_over se mb bc (fs : gmap nat string) msg :
  0 < bc ->
  shouldRollover se mb fs msg = true ->
  emit se mb bc fs msg !! 0%nat = Some (msg +:+ String "010"%char "") /\
  (forall i c, Z.of_nat i < bc -> fs !! i = Some c ->
     emit se mb bc fs msg !! S i = Some c).
Proof.
  intros Hbc Hs. unfold emit. rewrite Hs. split.
  - rewrite lookup_insert_eq, doRollover_fresh by exact Hbc. reflexivity.
  - intros i c Hi Hc. rewrite lookup_insert_ne by lia.
    apply doRollover_moves; assumption.
Qed.

(** C8.  The file handler that [setup_logger] adds writes to
    [<cwd>/logs/app.log], with [maxBytes] 10 MB (10485760) and
    [backupCount] 5.  A handler with a size cap [mb] and [bc] backups,
    both positive, as these are, writes a line so.  A rollover is due
    exactly when the line with its terminator would reach the cap (and, on
    interpreters that never roll an empty file over, the file is not
    empty).  When none is due the line is appended to [app.log] and no
    segment changes otherwise.  When one is due, every segment moves up by
    one ([app.log] to [app.log.1], ..., [app.log.(bc-1)] to [app.log.bc])
    and the line starts a new [app.log]; the segment that has nowhere to go
    is the oldest, [app.log.bc].  So the file stays below the cap as long
    as each line does, and no segment beyond [app.log.bc] ever appears: at
    most [bc] backups are retained, whatever is logged. *)
Theorem rotating_file_sink :
  (forall w,
      log_file_path w =
        (if String.eqb (cwd w) "" || OsPath.ends_with_sep (cwd w)
         then cwd w else cwd w +:+ "/") +:+ "logs/app.log") /\
  (forall w, ids_below "app" w ->
      In (new_file_handler w) (handlers_of "app" (exec setup_logger w)) /\
      h_class (new_file_handler w)
        = RotatingFileHandler (log_file_path w) 10485760 5) /\
  (forall se mb bc (fs : gmap nat string) msg,
      0 < mb -> 0 < bc ->
      (shouldRollover se mb fs msg = true <->
       (se = false \/ String.length (default "" (fs !! 0%nat)) <> 0%nat) /\
       mb <= Z.of_nat (String.length (default "" (fs !! 0%nat)))
             + Z.of_nat (String.length msg) + 1) /\
      (shouldRollover se mb fs msg = false ->
       emit se mb bc fs msg
         = <[0%nat := default "" (fs !! 0%nat) +:+ msg +:+ String "010"%char ""]> fs) /\
      (shouldRollover se mb fs msg = true ->
       emit se mb bc fs msg !! 0%nat = Some (msg +:+ String "010"%char "") /\
       (forall i c, Z.of_nat i < bc -> fs !! i = Some c ->
          emit se mb bc fs msg !! S i = Some c)) /\
      (Z.of_nat (String.length msg) + 1 < mb ->
       exists c, emit se mb bc fs msg !! 0%nat = Some c /\
                 Z.of_nat (String.length c) < mb)) /\
  (forall se mb bc (fs : gmap nat string) msgs,
      0 < mb -> 0 < bc ->
      within bc fs ->
      within bc (emit_all se mb bc fs msgs) /\
      (size (backups (emit_all se mb bc fs msgs)) <= Z.to_nat bc)%nat).
Proof.
  split; [exact log_file_path_eq|].
  split.
  { intros w Hids. split; [|reflexivity].
    destruct (SetupFacts.setup_logger_handlers w Hids) as (Hh & _).
    rewrite Hh. apply in_or_app. right. left. reflexivity. }
  split.
  { intros se mb bc fs msg Hmb Hbc.
    split; [apply shouldRollover_iff; exact Hmb|].
    split; [apply emit_appends|].
    split; [apply emit_rolls_over; exact Hbc|].
    intros Hfit. apply emit_under_cap; assumption. }
  intros se mb bc fs msgs Hmb Hbc Hw.
  assert (Hw' : within bc (emit_all se mb bc fs msgs))
    by (apply emit_all_within; [lia | exact Hw]).
  split; [exact Hw'|]. apply (backups_size bc); [lia | exact Hw'].
Qed.

Lemma rotating_file_sink_witness :
  shouldRollover true 16 six_lines_in "seventh line" = true /\
  emit true 16 5 six_lines_in "seventh line" !! 0%nat
    = Some ("seventh line" +:+ String "010"%char "") /\
  emit true 16 5 six_lines_in "seventh line" !! 5%nat
    = Some ("second line" +:+ String "010"%char "") /\
  (size (backups (emit_all true 16 5 {[ 0%nat := "started" ]}
                    ["first line"; "second line"; "third line"; "fourth line";
                     "fifth line"; "sixth line"; "seventh line"])) <= 5)%nat.
Proof.
  destruct rotating_file_sink as (_ & _ & Hline & Hkeep).
  destruct (Hline true 16 5 six_lines_in "seventh line") as (_ & _ & Hroll & _);
    [reflexivity | reflexivity |].
  assert (Hdue : shouldRollover true 16 six_lines_in "seventh line" = true)
    by (vm_compute; reflexivity).
  destruct (Hroll Hdue) as (Hnew & Hmove).
  split; [exact Hdue|]. split; [exact Hnew|].
  split; [apply (Hmove 4%nat); [reflexivity | vm_compute; reflexivity]|].
  apply (Hkeep true 16 5); [reflexivity | reflexivity |].
  intros i [c Hc].
  destruct (decide (i = 0%nat)) as [->|Hne]; [lia|].
  rewrite lookup_singleton_ne in Hc by congruence. discriminate Hc.
Defined.

End RotatingFacts.

(** ** The metrics module *)

Module MetricsFacts.
Import Metrics.

(** C9.  The module defines three instruments and no more: a counter
    labelled by method, path and status, a histogram labelled by method
    and path, and a gauge with no label; loading the module registers
    exactly these three; and [start_metrics_server] starts the exposition
    server on port 9090, whatever came before. *)
Theorem three_instruments_port_9090 :
  length instruments = 3%nat /\
  List.map (fun m => (m_name m, m_type m, m_labelnames m)) instruments =
    [("http_requests_total", Counter, ["method"; "path"; "status"]);
     ("http_request_latency_seconds", Histogram, ["method"; "path"]);
     ("http_requests_in_progress", Gauge, [])] /\
  (collectors <$> load empty_registry) =
    Some [REQUEST_COUNT; REQUEST_LATENCY; IN_PROGRESS] /\
  (forall done, start_metrics_server done = (done ++ [start_http_server 9090])%list).
Proof.
  split; [reflexivity|]. split; [reflexivity|]. split; [|reflexivity].
  vm_compute. reflexivity.
Qed.

End MetricsFacts.

(** ** The retry loop *)

Module RetryFacts.
Import Logging ErrorHandler DatabaseConn MonadFacts Examples.

(** C2.  With the cap of 3 attempts: when the first two calls of the
    connector fail with an operational error, the loop makes exactly three
    connection attempts (sleeping 2 seconds between them); if the third
    call fails too it raises APIException with message "Database
    connection error", status code 500 and the last error's text in
    details, and if the third call succeeds it binds the connection and
    raises nothing. *)
Theorem retry_three_attempts ctx url connect w e1 e2 :
  connect 1 = OperationalError e1 ->
  connect 2 = OperationalError e2 ->
  exists trace,
    trace = [Connect url; Sleep 2; Connect url; Sleep 2; Connect url] /\
    connects trace = 3%nat /\
    (forall e3, connect 3 = OperationalError e3 ->
       eval (load ctx url connect) w =
       (Raised (mkAPIException "Database connection error" 500
                  (Py.VDict [("error", Py.VStr e3)])), trace)) /\
    (forall c, connect 3 = Connection c ->
       eval (load ctx url connect) w = (Bound c, trace)).
Proof.
  intros H1 H2. eexists. split; [reflexivity|]. split; [reflexivity|].
  split; intros x H3; unfold load; rewrite eval_bind;
    change (attempts MAX_RETRIES) with [1; 2; 3]; change MAX_RETRIES with 3;
    cbn [retry_loop];
    unfold LoggerService.info, LoggerService.warning, LoggerService.error;
    rewrite eval_bind, H1, eval_bind; change (1 <? 3) with true; cbv iota;
    rewrite eval_bind, H2, eval_bind; change (2 <? 3) with true; cbv iota;
    rewrite eval_bind, H3, eval_bind.
  - change (3 <? 3) with false. cbv iota. rewrite eval_bind. reflexivity.
  - reflexivity.
Qed.

Lemma retry_three_attempts_witness :
  fst (eval (load ∅ "postgresql://db/auth" always_failing)
         (LoggerService.fresh_world "/srv/app" (fun _ => 0))) =
    Raised (mkAPIException "Database connection error" 500
              (Py.VDict [("error", Py.VStr "timeout")])) /\
  fst (eval (load ∅ "postgresql://db/auth" third_time_lucky)
         (LoggerService.fresh_world "/srv/app" (fun _ => 0))) = Bound 7.
Proof.
  split.
  - destruct (retry_three_attempts ∅ "postgresql://db/auth" always_failing
                (LoggerService.fresh_world "/srv/app" (fun _ => 0))
                "timeout" "timeout" eq_refl eq_refl) as (tr & _ & _ & Hfail & _).
    rewrite (Hfail "timeout" eq_refl). reflexivity.
  - destruct (retry_three_attempts ∅ "postgresql://db/auth" third_time_lucky
                (LoggerService.fresh_world "/srv/app" (fun _ => 0))
                "connection refused" "connection refused" eq_refl eq_refl)
      as (tr & _ & _ & _ & Hok).
    rewrite (Hok 7%nat eq_refl). reflexivity.
Defined.

End RetryFacts.

(** * Further properties of the same code *)

(** ** More on the retry loop *)

Module RetryMoreFacts.
Import Logging ErrorHandler DatabaseConn MonadFacts Examples Observations.

(** The three iterations, written out. *)
Lemma load_unrolled ctx url connect w :
  eval (load ctx url connect) w =
    match connect 1 with
    | Connection c => (Bound c, [Connect url])
    | OtherError e => (Propagated e, [Connect url])
    | OperationalError _ =>
        match connect 2 with
        | Connection c => (Bound c, [Connect url; Sleep 2; Connect url])
        | OtherError e => (Propagated e, [Connect url; Sleep 2; Connect url])
        | OperationalError _ =>
            match connect 3 with
            | Connection c =>
                (Bound c, [Connect url; Sleep 2; Connect url; Sleep 2; Connect url])
            | OtherError e =>
                (Propagated e, [Connect url; Sleep 2; Connect url; Sleep 2; Connect url])
            | OperationalError e =>
                (Raised (mkAPIException "Database connection error" 500
                           (Py.VDict [("error", Py.VStr e)])),
                 [Connect url; Sleep 2; Connect url; Sleep 2; Connect url])
            end
        end
    end.
Proof.
  unfold load. rewrite eval_bind.
  change (attempts MAX_RETRIES) with [1; 2; 3]. change MAX_RETRIES with 3.
  cbn [retry_loop].
  unfold LoggerService.info, LoggerService.warning, LoggerService.error.
  rewrite eval_bind.
  destruct (connect 1); [rewrite eval_bind; reflexivity | | reflexivity].
  rewrite eval_bind. change (1 <? 3) with true. cbv iota.
  rewrite eval_bind.
  destruct (connect 2); [rewrite eval_bind; reflexivity | | reflexivity].
  rewrite eval_bind. change (2 <? 3) with true. cbv iota.
  rewrite eval_bind.
  destruct (connect 3); [rewrite eval_bind; reflexivity | | reflexivity].
  rewrite eval_bind. change (3 <? 3) with false. cbv iota.
  rewrite eval_bind. reflexivity.
Qed.

(** X1.  Whatever the connector does, the module-level loop makes at least
    one and at most three connection attempts, sleeps only between two
    attempts (one sleep fewer than attempts, each of [RETRY_DELAY]
    seconds), and never runs out with [conn] unbound. *)
Theorem retry_attempts_bounded ctx url connect w :
  fst (eval (load ctx url connect) w) <> Unbound /\
  (1 <= connects (snd (eval (load ctx url connect) w)) <= 3)%nat /\
  S (sleeps (snd (eval (load ctx url connect) w)))
    = connects (snd (eval (load ctx url connect) w)) /\
  Forall (fun e => e = Connect url \/ e = Sleep RETRY_DELAY)
         (snd (eval (load ctx url connect) w)) /\
  List.last (snd (eval (load ctx url connect) w)) (Sleep 0) = Connect url.
Proof.
  rewrite load_unrolled.
  destruct (connect 1); [| destruct (connect 2); [| destruct (connect 3) |] |];
    cbn [fst snd]; (split; [discriminate|]);
    (split; [cbn; lia|]); (split; [reflexivity|]);
    (split; [| reflexivity]);
    repeat (constructor; [first [left; reflexivity | right; reflexivity]|]);
    constructor.
Qed.

(** X2.  The loop raises APIException only when all three attempts raised
    [OperationalError]; the exception then has status code 500, the fixed
    message, and the text of the third error under ["error"] in details. *)
Theorem retry_raises_only_when_exhausted ctx url connect w exc :
  fst (eval (load ctx url connect) w) = Raised exc ->
  exists e1 e2 e3,
    connect 1 = OperationalError e1 /\
    connect 2 = OperationalError e2 /\
    connect 3 = OperationalError e3 /\
    exc = mkAPIException "Database connection error" 500
            (Py.VDict [("error", Py.VStr e3)]) /\
    connects (snd (eval (load ctx url connect) w)) = 3%nat.
Proof.
  rewrite load_unrolled.
  destruct (connect 1) as [|e1|]; [discriminate | | discriminate].
  destruct (connect 2) as [|e2|]; [discriminate | | discriminate].
  destruct (connect 3) as [|e3|]; [discriminate | | discriminate].
  cbn [fst snd]. intros [= <-]. exists e1, e2, e3. repeat split.
Qed.

Lemma retry_raises_only_when_exhausted_witness :
  exists e1 e2 e3,
    always_failing 1 = OperationalError e1 /\
    always_failing 2 = OperationalError e2 /\
    always_failing 3 = OperationalError e3 /\
    mkAPIException "Database connection error" 500
      (Py.VDict [("error", Py.VStr "timeout")])
    = mkAPIException "Database connection error" 500
        (Py.VDict [("error", Py.VStr e3)]) /\
    connects (snd (eval (load ∅ "postgresql://db/auth" always_failing)
                        (LoggerService.fresh_world "/srv/app" (fun _ => 0)))) = 3%nat.
Proof.
  apply (retry_raises_only_when_exhausted ∅ "postgresql://db/auth" always_failing
           (LoggerService.fresh_world "/srv/app" (fun _ => 0))).
  vm_compute. reflexivity.
Defined.

(** X3.  The first attempt that succeeds ends the loop: when attempt [k]
    (1, 2 or 3) returns a connection and every earlier attempt raised
    [OperationalError], [conn] is bound to that connection after exactly
    [k] connection attempts and [k - 1] sleeps, and nothing is raised. *)
Theorem retry_stops_at_first_success ctx url connect w k c :
  1 <= k <= 3 ->
  (forall j, 1 <= j < k -> exists e, connect j = OperationalError e) ->
  connect k = Connection c ->
  fst (eval (load ctx url connect) w) = Bound c /\
  connects (snd (eval (load ctx url connect) w)) = Z.to_nat k /\
  sleeps (snd (eval (load ctx url connect) w)) = Z.to_nat (k - 1).
Proof.
  intros Hk Hbefore Hc. rewrite load_unrolled.
  assert (Hcases : k = 1 \/ k = 2 \/ k = 3) by lia.
  destruct Hcases as [-> | [-> | ->]].
  - rewrite Hc. repeat split.
  - destruct (Hbefore 1 ltac:(lia)) as [e1 ->]. rewrite Hc. repeat split.
  - destruct (Hbefore 1 ltac:(lia)) as [e1 ->].
    destruct (Hbefore 2 ltac:(lia)) as [e2 ->]. rewrite Hc. repeat split.
Qed.

Lemma retry_stops_at_first_success_witness :
  fst (eval (load ∅ "postgresql://db/auth" third_time_lucky)
            (LoggerService.fresh_world "/srv/app" (fun _ => 0))) = Bound 7 /\
  connects (snd (eval (load ∅ "postgresql://db/auth" third_time_lucky)
                      (LoggerService.fresh_world "/srv/app" (fun _ => 0)))) = 3%nat /\
  sleeps (snd (eval (load ∅ "postgresql://db/auth" third_time_lucky)
                    (LoggerService.fresh_world "/srv/app" (fun _ => 0)))) = 2%nat.
Proof.
  apply (retry_stops_at_first_success ∅ "postgresql://db/auth" third_time_lucky
           (LoggerService.fresh_world "/srv/app" (fun _ => 0)) 3 7%nat).
  - lia.
  - intros j Hj. exists "connection refused". unfold third_time_lucky.
    destruct (j <? 3) eqn:E; [reflexivity | apply Z.ltb_ge in E; lia].
  - reflexivity.
Defined.

(** X4.  An exception other than [OperationalError] is neither retried nor
    turned into an APIException: when attempt [k] raises one and every
    earlier attempt raised [OperationalError], it leaves the loop as it is,
    after exactly [k] connection attempts. *)
Theorem retry_lets_other_errors_through ctx url connect w k e :
  1 <= k <= 3 ->
  (forall j, 1 <= j < k -> exists e', connect j = OperationalError e') ->
  connect k = OtherError e ->
  fst (eval (load ctx url connect) w) = Propagated e /\
  connects (snd (eval (load ctx url connect) w)) = Z.to_nat k.
Proof.
  intros Hk Hbefore Hc. rewrite load_unrolled.
  assert (Hcases : k = 1 \/ k = 2 \/ k = 3) by lia.
  destruct Hcases as [-> | [-> | ->]].
  - rewrite Hc. repeat split.
  - destruct (Hbefore 1 ltac:(lia)) as [e1 ->]. rewrite Hc. repeat split.
  - destruct (Hbefore 1 ltac:(lia)) as [e1 ->].
    destruct (Hbefore 2 ltac:(lia)) as [e2 ->]. rewrite Hc. repeat split.
Qed.

Lemma retry_lets_other_errors_through_witness :
  fst (eval (load ∅ "postgresql://db/auth" bad_dsn)
            (LoggerService.fresh_world "/srv/app" (fun _ => 0)))
    = Propagated "invalid dsn" /\
  connects (snd (eval (load ∅ "postgresql://db/auth" bad_dsn)
                      (LoggerService.fresh_world "/srv/app" (fun _ => 0)))) = 1%nat.
Proof.
  apply (retry_lets_other_errors_through ∅ "postgresql://db/auth" bad_dsn
           (LoggerService.fresh_world "/srv/app" (fun _ => 0)) 1 "invalid dsn").
  - lia.
  - intros j Hj. lia.
  - reflexivity.
Defined.

End RetryMoreFacts.

(** ** More on [setup_logger] and on what a logging call emits *)

Module SetupMoreFacts.
Import Logging LoggerService MonadFacts LoggingFacts SetupFacts IsolationFacts Observations.

Lemma setup_logger_app w :
  exists l,
    loggers (exec setup_logger w) !! "app" = Some l /\
    l_level l = INFO /\
    l_disabled l = default false (l_disabled <$> loggers w !! "app") /\
    l_propagate l = default true (l_propagate <$> loggers w !! "app").
Proof.
  unfold setup_logger, exec, eval, bind, modify, fresh, getLogger, setLevel, addHandler,
    update_logger, ret. simpl.
  destruct (loggers w !! "app") as [l|] eqn:Hl; simpl.
  - rewrite !lookup_alter_eq, Hl. simpl.
    eexists. split; [reflexivity|].
    repeat match goal with |- context [if ?b then _ else _] => destruct b end;
      repeat split.
  - rewrite !lookup_alter_eq, lookup_insert_eq. simpl.
    eexists. split; [reflexivity|].
    repeat match goal with |- context [if ?b then _ else _] => destruct b end;
      repeat split.
Qed.

Lemma setup_logger_others w name :
  name <> "app" ->
  loggers (exec setup_logger w) !! name = loggers w !! name.
Proof.
  intros Hne.
  unfold setup_logger, exec, eval, bind, modify, fresh, getLogger, setLevel, addHandler,
    update_logger, ret. simpl.
  destruct (loggers w !! "app") as [l|] eqn:Hl; simpl;
    rewrite !lookup_alter_ne by congruence; [reflexivity|].
  apply lookup_insert_ne. congruence.
Qed.

Lemma setup_logger_rest w :
  root (exec setup_logger w) = root w /\
  records (exec setup_logger w) = records w /\
  emitted (exec setup_logger w) = emitted w /\
  drawn (exec setup_logger w) = drawn w /\
  entropy (exec setup_logger w) = entropy w /\
  cwd (exec setup_logger w) = cwd w /\
  next_id (exec setup_logger w) = S (S (S (next_id w))) /\
  dirs (exec setup_logger w) = {[ base_log_dir w ]} ∪ dirs w.
Proof.
  unfold setup_logger, exec, eval, bind, modify, fresh, getLogger, setLevel, addHandler,
    update_logger, ret. simpl.
  destruct (loggers w !! "app") as [l|] eqn:Hl; simpl; repeat split.
Qed.

Lemma setup_ready w :
  (forall l, loggers w !! "app" = Some l -> l_disabled l = false) ->
  app_ready (exec setup_logger w).
Proof.
  intros Hen. destruct (setup_logger_app w) as (l & Hl & Hlev & Hdis & _).
  exists l. split; [exact Hl|]. split; [exact Hlev|].
  rewrite Hdis. destruct (loggers w !! "app") as [l0|] eqn:E; [|reflexivity].
  cbn. apply Hen. reflexivity.
Qed.

Lemma level_below_info name l level w :
  l_level l = INFO -> level < INFO -> isEnabledFor name l level w = false.
Proof.
  intros Hlev Hlt. unfold isEnabledFor, getEffectiveLevel.
  destruct (l_disabled l); [reflexivity|].
  destruct (level <=? manager_disable); [reflexivity|].
  cbn [first_level]. rewrite Hlev. change (INFO =? NOTSET) with false. cbv iota.
  apply Z.leb_gt. exact Hlt.
Qed.

Lemma ready_enabled name l level w :
  l_level l = INFO -> l_disabled l = false ->
  isEnabledFor name l level w = (INFO <=? level).
Proof.
  intros Hlev Hdis. destruct (INFO <=? level) eqn:E.
  - apply Z.leb_le in E. unfold isEnabledFor, getEffectiveLevel. rewrite Hdis.
    replace (level <=? manager_disable) with false
      by (symmetry; apply Z.leb_gt; unfold manager_disable, INFO in *; lia).
    cbn [first_level]. rewrite Hlev. change (INFO =? NOTSET) with false. cbv iota.
    apply Z.leb_le. exact E.
  - apply Z.leb_gt in E. apply level_below_info; assumption.
Qed.

Lemma log_ready ctx name level msg w :
  app_ready w -> app_ready (exec (log ctx name level msg) w).
Proof.
  intros (l & Hl & Hlev & Hdis).
  destruct (log_frame ctx name level msg w) as (Hsame & _).
  exists l. rewrite Hsame. auto.
Qed.

Lemma log_records ctx level msg w :
  app_ready w -> INFO <= level ->
  records (exec (log ctx "app" level msg) w)
    = (records w ++ [mkRecord "app" level msg None None])%list.
Proof.
  intros (l & Hl & Hlev & Hdis) Hle.
  assert (He : isEnabledFor "app" l level w = true).
  { rewrite (ready_enabled "app" l level w Hlev Hdis). apply Z.leb_le. exact Hle. }
  destruct (log_enabled ctx "app" level msg l w Hl He)
    as (_ & _ & _ & _ & _ & _ & Hrec & _).
  exact Hrec.
Qed.

Lemma log_all_ready ctx name calls : forall w,
  app_ready w -> app_ready (log_all ctx name calls w).
Proof.
  induction calls as [|c calls IH]; intros w Hr; [exact Hr|].
  cbn [log_all fold_left]. apply IH. apply log_ready. exact Hr.
Qed.

Lemma log_all_records ctx calls : forall w,
  app_ready w ->
  Forall (fun c => INFO <= fst c) calls ->
  records (log_all ctx "app" calls w)
    = (records w ++ List.map (record_of "app") calls)%list.
Proof.
  induction calls as [|c calls IH]; intros w Hr Hall.
  - cbn. symmetry. apply app_nil_r.
  - inversion Hall as [|? ? Hc Hcs]; subst.
    cbn [log_all fold_left List.map].
    change (fold_left _ calls ?w0) with (log_all ctx "app" calls w0).
    rewrite IH; [| apply log_ready; exact Hr | exact Hcs].
    rewrite log_records by assumption.
    rewrite <- app_assoc. reflexivity.
Qed.

Lemma nearest_same names (m m' : gmap string Logger) :
  (forall a, In a names -> m' !! a = m !! a) -> nearest names m' = nearest names m.
Proof.
  induction names as [|a names IH]; intros Hsame; [reflexivity|].
  cbn [nearest]. rewrite (Hsame a) by (left; reflexivity).
  destruct (m !! a); [reflexivity|]. apply IH. intros b Hb. apply Hsame. right. exact Hb.
Qed.

Lemma nearest_only names (m : gmap string Logger) a l :
  In a names -> m !! a = Some l ->
  (forall b, In b names -> b <> a -> m !! b = None) ->
  nearest names m = Some (a, l).
Proof.
  induction names as [|b names IH]; intros Hin Ha Honly; [destruct Hin|].
  cbn [nearest]. destruct (String.eqb_spec b a) as [->|Hne].
  - rewrite Ha. reflexivity.
  - rewrite (Honly b) by (auto; left; reflexivity).
    destruct Hin as [Hin|Hin]; [congruence|].
    apply IH; [exact Hin | exact Ha |]. intros c Hc. apply Honly. right. exact Hc.
Qed.

Lemma ancestors_nonempty name a : In a (ancestors name) -> String.length name <> 0%nat.
Proof.
  unfold ancestors. destruct (String.length name); [intros []|]. intros _. discriminate.
Qed.

(** X5.  What [setup_logger] changes in the logging state.  The logger
    "app" gets level INFO whatever it had and keeps its [disabled] and
    [propagate] flags; no other logger's own attributes change, nor the
    root logger; no record is made, nothing is emitted, no entropy is
    drawn; the [logs] directory is added to the directories there are.
    The hierarchy does change: a logger whose name has "app" among its
    dotted prefixes, and no other logger among them, has "app" as its
    parent afterwards, so that with no level of its own its effective
    level is INFO; a logger whose name does not have "app" among its
    dotted prefixes keeps its parent. *)
Theorem setup_logger_footprint w :
  exists l,
    (loggers (exec setup_logger w) !! "app" = Some l /\
     l_level l = INFO /\
     l_disabled l = default false (l_disabled <$> loggers w !! "app") /\
     l_propagate l = default true (l_propagate <$> loggers w !! "app")) /\
    (forall name, name <> "app" ->
        loggers (exec setup_logger w) !! name = loggers w !! name) /\
    (forall name, ~ In "app" (ancestors name) ->
        parent name (exec setup_logger w) = parent name w) /\
    (forall name c,
        In "app" (ancestors name) ->
        (forall a, In a (ancestors name) -> a <> "app" -> loggers w !! a = None) ->
        parent name (exec setup_logger w) = Some ("app", l) /\
        (l_level c = NOTSET -> getEffectiveLevel name c (exec setup_logger w) = INFO)) /\
    root (exec setup_logger w) = root w /\
    records (exec setup_logger w) = records w /\
    emitted (exec setup_logger w) = emitted w /\
    drawn (exec setup_logger w) = drawn w /\
    dirs (exec setup_logger w) = {[ OsPath.join (cwd w) "logs" ]} ∪ dirs w.
Proof.
  destruct (setup_logger_app w) as (l & Hl & Hlev & Hflags).
  exists l. split; [auto|].
  split; [intros name Hne; apply setup_logger_others; exact Hne|].
  split.
  { intros name Hnot. unfold parent. apply nearest_same.
    intros a Ha. apply setup_logger_others. intros ->. exact (Hnot Ha). }
  split.
  { intros name c Hin Honly.
    assert (Hp : parent name (exec setup_logger w) = Some ("app", l)).
    { unfold parent. apply nearest_only; [exact Hin | exact Hl |].
      intros b Hb Hne. rewrite setup_logger_others by exact Hne. apply Honly; assumption. }
    split; [exact Hp|]. intros Hc.
    unfold getEffectiveLevel, parents.
    destruct (String.length name) as [|n] eqn:E;
      [exfalso; exact (ancestors_nonempty name "app" Hin E)|].
    cbn [parents_from]. rewrite Hp. cbn [first_level]. rewrite Hc, Hlev. reflexivity. }
  destruct (setup_logger_rest w) as (Hroot & Hrec & Hem & Hdr & _ & _ & _ & Hdirs).
  auto 10.
Qed.

Lemma setup_logger_footprint_witness :
  getEffectiveLevel "app.x" (mkLogger NOTSET [] true false) child_before_app = WARNING /\
  getEffectiveLevel "app.x" (mkLogger NOTSET [] true false)
    (exec setup_logger child_before_app) = INFO.
Proof.
  split; [reflexivity|].
  destruct (setup_logger_footprint child_before_app) as (l & _ & _ & _ & Hre & _).
  apply (Hre "app.x" (mkLogger NOTSET [] true false)).
  - left. reflexivity.
  - intros a [<-|[]] Hne. exfalso. apply Hne. reflexivity.
  - reflexivity.
Defined.

(** X6.  After [setup_logger], a call on the logger "app" below level INFO
    (a [logger.debug]) changes nothing: no record is made, nothing is
    emitted, no entropy is drawn.  A call at INFO or above, on a logger
    that was not disabled, makes exactly one record, with the logger's
    name, the level and the message of the call. *)
Theorem setup_logger_threshold w ctx level msg :
  (level < INFO ->
     exec (log ctx "app" level msg) (exec setup_logger w) = exec setup_logger w) /\
  (INFO <= level ->
     (forall l, loggers w !! "app" = Some l -> l_disabled l = false) ->
     records (exec (log ctx "app" level msg) (exec setup_logger w))
       = (records w ++ [mkRecord "app" level msg None None])%list).
Proof.
  split.
  - intros Hlt. destruct (setup_logger_app w) as (l & Hl & Hlev & _).
    apply (log_disabled ctx "app" level msg l _ Hl).
    apply level_below_info; assumption.
  - intros Hle Hen. rewrite log_records; [| apply setup_ready; exact Hen | exact Hle].
    destruct (setup_logger_rest w) as (_ & Hrec & _). rewrite Hrec. reflexivity.
Qed.

Lemma setup_logger_threshold_witness :
  exec (log ∅ "app" DEBUG "cache miss")
       (exec setup_logger (fresh_world "/srv/app" (fun _ => 0)))
    = exec setup_logger (fresh_world "/srv/app" (fun _ => 0)) /\
  records (exec (log ∅ "app" WARNING "slow query")
                (exec setup_logger (fresh_world "/srv/app" (fun _ => 0))))
    = [mkRecord "app" WARNING "slow query" None None].
Proof.
  split.
  - apply (setup_logger_threshold (fresh_world "/srv/app" (fun _ => 0)) ∅ DEBUG
             "cache miss"). reflexivity.
  - apply (setup_logger_threshold (fresh_world "/srv/app" (fun _ => 0)) ∅ WARNING
             "slow query").
    + discriminate.
    + intros l Hl. unfold fresh_world in Hl. cbn [loggers] in Hl.
      rewrite lookup_empty in Hl. discriminate Hl.
Defined.

(** X17.  The directory [setup_logger] makes is the one the log file lies
    in: the handler's file name is that directory's path followed by
    [/app.log], the directory is among the directories after the call, and
    no directory that existed before is lost. *)
Theorem log_directory_holds_log_file w :
  log_file_path w = OsPath.join (cwd w) "logs" +:+ "/app.log" /\
  OsPath.join (cwd w) "logs" ∈ dirs (exec setup_logger w) /\
  dirs w ⊆ dirs (exec setup_logger w).
Proof.
  destruct (setup_logger_rest w) as (_ & _ & _ & _ & _ & _ & _ & Hdirs).
  split; [|split].
  - unfold log_file_path, base_log_dir.
    assert (Hx : exists x, OsPath.join (cwd w) "logs" = x +:+ "logs").
    { unfold OsPath.join. cbn [OsPath.starts_with_sep Ascii.eqb Bool.eqb].
      destruct (String.eqb (cwd w) "" || OsPath.ends_with_sep (cwd w)).
      - eexists. reflexivity.
      - exists (cwd w +:+ "/"). rewrite StringFacts.append_assoc. reflexivity. }
    destruct Hx as (x & ->). rewrite RotatingFacts.join_dir_file.
    rewrite StringFacts.append_assoc. reflexivity.
  - rewrite Hdirs. unfold base_log_dir. apply elem_of_union_l, elem_of_singleton.
    reflexivity.
  - rewrite Hdirs. apply union_subseteq_r.
Qed.

End SetupMoreFacts.

(** ** Every handler emits every record *)

Module EmissionFacts.
Import Logging LoggerService MonadFacts LoggingFacts ContextFilterFacts SetupFacts
       IsolationFacts Observations SetupMoreFacts.

Lemma same_call_refl r : same_call r r.
Proof. repeat split. Qed.

Lemma same_call_trans r1 r2 r3 : same_call r1 r2 -> same_call r2 r3 -> same_call r1 r3.
Proof. intros (a & b & c) (a' & b' & c'). repeat split; congruence. Qed.

Lemma filter_passes ctx record w :
  fst (eval (ContextFilter_filter ctx record) w) = true /\
  same_call record (snd (eval (ContextFilter_filter ctx record) w)).
Proof.
  unfold eval. destruct (Py.truthy (var_get ctx request_id_ctx)) eqn:E.
  - rewrite filter_bound_id by exact E. repeat split.
  - rewrite filter_unbound_id by exact E. repeat split.
Qed.

Lemma filterer_passes ctx fs : forall record w,
  fst (eval (filterer_filter ctx fs record) w) = true /\
  same_call record (snd (eval (filterer_filter ctx fs record) w)).
Proof.
  induction fs as [|f fs IH]; intros record w.
  - split; [reflexivity | apply same_call_refl].
  - cbn [filterer_filter]. rewrite eval_bind.
    destruct f as [i []]. unfold run_filter. cbn [f_class].
    destruct (filter_passes ctx record w) as (Hok & Hsame).
    destruct (eval (ContextFilter_filter ctx record) w) as [ok r'] eqn:E.
    cbn [fst snd] in Hok, Hsame. subst ok.
    destruct (IH r' (exec (ContextFilter_filter ctx record) w)) as (Hok' & Hsame').
    split; [exact Hok'|]. eapply same_call_trans; eassumption.
Qed.

Lemma filter_silent ctx record w :
  emitted (exec (ContextFilter_filter ctx record) w) = emitted w.
Proof.
  unfold exec. destruct (Py.truthy (var_get ctx request_id_ctx)) eqn:E.
  - rewrite filter_bound_id by exact E. reflexivity.
  - rewrite filter_unbound_id by exact E. reflexivity.
Qed.

Lemma filterer_silent ctx fs : forall record w,
  emitted (exec (filterer_filter ctx fs record) w) = emitted w.
Proof.
  induction fs as [|f fs IH]; intros record w; [reflexivity|].
  cbn [filterer_filter]. rewrite exec_bind.
  destruct f as [i []]. unfold run_filter. cbn [f_class].
  destruct (filter_passes ctx record w) as (Hok & _).
  destruct (eval (ContextFilter_filter ctx record) w) as [ok r'] eqn:E.
  cbn [fst] in Hok. subst ok. rewrite IH. apply filter_silent.
Qed.

Lemma handle_passes ctx h record w :
  same_call record (eval (handle ctx h record) w) /\
  emitted (exec (handle ctx h record) w)
    = (emitted w ++ [(ToHandler (h_id h), eval (handle ctx h record) w)])%list.
Proof.
  unfold handle. rewrite eval_bind, exec_bind.
  destruct (filterer_passes ctx (h_filters h) record w) as (Hok & Hsame).
  pose proof (filterer_silent ctx (h_filters h) record w) as Hem.
  destruct (eval (filterer_filter ctx (h_filters h) record) w) as [ok r'] eqn:E.
  cbn [fst snd] in Hok, Hsame. subst ok.
  rewrite eval_bind, exec_bind. cbn [eval exec ret modify fst snd emitted add_emitted].
  rewrite Hem. split; [exact Hsame | reflexivity].
Qed.

Lemma call_each_passes ctx hs : forall record w,
  Forall (fun h => h_level h <= r_levelno record) hs ->
  same_call record (eval (call_each ctx hs record) w) /\
  exists new,
    emitted (exec (call_each ctx hs record) w) = (emitted w ++ new)%list /\
    List.map fst new = sinks_of hs /\
    Forall (fun e => same_call record (snd e)) new.
Proof.
  induction hs as [|h hs IH]; intros record w Hall.
  - split; [apply same_call_refl|]. exists []. cbn.
    split; [symmetry; apply app_nil_r | split; [reflexivity | constructor]].
  - inversion Hall as [|? ? Hh Hhs]; subst.
    cbn [call_each]. rewrite eval_bind, exec_bind.
    apply Z.leb_le in Hh. rewrite Hh.
    destruct (handle_passes ctx h record w) as (Hsame & Hexec).
    set (r1 := eval (handle ctx h record) w) in *.
    assert (Hall' : Forall (fun h0 => h_level h0 <= r_levelno r1) hs).
    { destruct Hsame as (_ & Hlev & _). rewrite Hlev. exact Hhs. }
    destruct (IH r1 (exec (handle ctx h record) w) Hall')
      as (Hsame' & new & Hem & Hsinks & Hnew).
    split; [eapply same_call_trans; eassumption|].
    exists ((ToHandler (h_id h), r1) :: new).
    rewrite Hem, Hexec, <- app_assoc.
    split; [reflexivity|]. split; [cbn; rewrite Hsinks; reflexivity|].
    constructor; [exact Hsame|].
    eapply Forall_impl; [exact Hnew|].
    intros e He. eapply same_call_trans; eassumption.
Qed.

Lemma callHandlers_passes ctx name l record w :
  ancestors name = [] ->
  l_handlers l <> [] ->
  Forall (fun h => h_level h <= r_levelno record) (l_handlers l) ->
  l_handlers (root w) = [] ->
  exists new,
    emitted (exec (callHandlers ctx name l record) w) = (emitted w ++ new)%list /\
    List.map fst new = sinks_of (l_handlers l) /\
    Forall (fun e => same_call record (snd e)) new.
Proof.
  intros Ha Hne Hall Hroot. rewrite (callHandlers_own ctx name l record w Ha Hne Hroot).
  destruct (call_each_passes ctx (l_handlers l) record w Hall) as (_ & new & Hem & Hs & Hnew).
  exists new. auto.
Qed.

Lemma log_enabled_run ctx name level msg l w :
  loggers w !! name = Some l ->
  isEnabledFor name l level w = true ->
  exec (log ctx name level msg) w =
    exec (callHandlers ctx name l (mkRecord name level msg None None))
         (add_record (mkRecord name level msg None None) w).
Proof.
  intros Hl He. unfold log, exec. rewrite Hl, He. rewrite run_bind. reflexivity.
Qed.

(** X7.  Nothing set up by this code filters a record out: when the logger
    "app" is enabled for the level of a call, has handlers, each with a
    level at or below the call's, and the root logger has none, one call
    emits the record exactly once per handler, in the order of the
    handler list, each time with the call's logger name, level and
    message. *)
Theorem every_handler_emits_once ctx level msg l w :
  loggers w !! "app" = Some l ->
  isEnabledFor "app" l level w = true ->
  l_handlers l <> [] ->
  Forall (fun h => h_level h <= level) (l_handlers l) ->
  l_handlers (root w) = [] ->
  exists new,
    emitted (exec (log ctx "app" level msg) w) = (emitted w ++ new)%list /\
    List.map fst new = sinks_of (l_handlers l) /\
    Forall (fun e => same_call (mkRecord "app" level msg None None) (snd e)) new.
Proof.
  intros Hl He Hne Hall Hroot.
  rewrite (log_enabled_run ctx "app" level msg l w Hl He).
  apply (callHandlers_passes ctx "app" l (mkRecord "app" level msg None None)
           (add_record (mkRecord "app" level msg None None) w) eq_refl Hne Hall Hroot).
Qed.

Lemma every_handler_emits_once_witness :
  exists new,
    emitted (exec (log ∅ "app" INFO "request served")
                  (exec setup_logger (fresh_world "/srv/app" (fun _ => 0))))
      = ([] ++ new)%list /\
    List.map fst new = [ToHandler 0; ToHandler 1] /\
    Forall (fun e => same_call (mkRecord "app" INFO "request served" None None) (snd e))
           new.
Proof.
  apply (every_handler_emits_once ∅ INFO "request served"
           (mkLogger INFO
              (handlers_of "app" (exec setup_logger (fresh_world "/srv/app" (fun _ => 0))))
              true false)
           (exec setup_logger (fresh_world "/srv/app" (fun _ => 0)))).
  - vm_compute. reflexivity.
  - vm_compute. reflexivity.
  - vm_compute. discriminate.
  - vm_compute. repeat constructor; discriminate.
  - reflexivity.
Defined.

Lemma setup_keeps_ready w : app_ready w -> app_ready (exec setup_logger w).
Proof.
  intros (l & Hl & _ & Hdis). apply setup_ready.
  intros l' Hl'. rewrite Hl in Hl'. injection Hl' as <-. exact Hdis.
Qed.

Lemma exec_setup_times_S n w :
  exec (setup_logger_times (S n)) w = exec (setup_logger_times n) (exec setup_logger w).
Proof.
  cbn [setup_logger_times]. rewrite exec_bind, exec_bind. reflexivity.
Qed.

Lemma setup_times_keeps_ready n : forall w,
  app_ready w -> app_ready (exec (setup_logger_times n) w).
Proof.
  induction n as [|n IH]; intros w Hr; [exact Hr|].
  rewrite exec_setup_times_S. apply IH, setup_keeps_ready, Hr.
Qed.

Lemma setup_times_handlers n : forall w,
  ids_below "app" w ->
  Forall (fun h => h_level h = NOTSET) (handlers_of "app" w) ->
  ids_below "app" (exec (setup_logger_times n) w) /\
  Forall (fun h => h_level h = NOTSET) (handlers_of "app" (exec (setup_logger_times n) w)) /\
  length (handlers_of "app" (exec (setup_logger_times n) w))
    = (length (handlers_of "app" w) + 2 * n)%nat /\
  root (exec (setup_logger_times n) w) = root w.
Proof.
  induction n as [|n IH]; intros w Hids Hlev.
  - cbn [setup_logger_times]. rewrite exec_ret.
    split; [exact Hids|]. split; [exact Hlev|]. split; [lia | reflexivity].
  - rewrite exec_setup_times_S.
    destruct (setup_logger_handlers w Hids) as (Hh & _).
    destruct (setup_logger_rest w) as (Hroot & _).
    assert (Hlev' : Forall (fun h => h_level h = NOTSET)
                      (handlers_of "app" (exec setup_logger w))).
    { rewrite Hh. apply Forall_app. split; [exact Hlev|]. repeat constructor. }
    destruct (IH _ (setup_logger_ids_below w Hids) Hlev') as (Hi & Hl & Hn & Hr).
    split; [exact Hi|]. split; [exact Hl|]. split; [|congruence].
    rewrite Hn, Hh, length_app. cbn [length]. lia.
Qed.

(** X8.  Each call of [setup_logger] makes every later log line appear
    once more on each sink: in a process where the logger "app" did not
    exist and the root logger has no handler, after [n >= 1] calls of
    [setup_logger] one call at INFO or above is emitted [2 * n] times,
    once by each of the [n] file handlers and [n] console handlers. *)
Theorem each_setup_duplicates_output n ctx level msg w :
  loggers w !! "app" = None ->
  l_handlers (root w) = [] ->
  (1 <= n)%nat ->
  INFO <= level ->
  exists new,
    emitted (exec (log ctx "app" level msg) (exec (setup_logger_times n) w))
      = (emitted (exec (setup_logger_times n) w) ++ new)%list /\
    List.map fst new = sinks_of (handlers_of "app" (exec (setup_logger_times n) w)) /\
    length new = (2 * n)%nat /\
    Forall (fun e => r_msg (snd e) = msg /\ r_levelno (snd e) = level) new.
Proof.
  intros Hnone Hroot Hn Hle.
  assert (Hh0 : handlers_of "app" w = []) by (unfold handlers_of; rewrite Hnone; reflexivity).
  assert (Hids : ids_below "app" w) by (unfold ids_below; rewrite Hh0; constructor).
  assert (Hlev0 : Forall (fun h => h_level h = NOTSET) (handlers_of "app" w))
    by (rewrite Hh0; constructor).
  destruct (setup_times_handlers n w Hids Hlev0) as (_ & Hlev & Hlen & Hr).
  rewrite Hh0 in Hlen. cbn [length] in Hlen.
  assert (Hready : app_ready (exec (setup_logger_times n) w)).
  { destruct n as [|n]; [lia|]. rewrite exec_setup_times_S.
    apply setup_times_keeps_ready, setup_ready.
    intros l Hl. rewrite Hnone in Hl. discriminate Hl. }
  destruct Hready as (l & Hl & Hlevel & Hdis).
  assert (Hhs : handlers_of "app" (exec (setup_logger_times n) w) = l_handlers l)
    by (unfold handlers_of; rewrite Hl; reflexivity).
  rewrite Hhs in Hlev, Hlen |- *.
  assert (He : isEnabledFor "app" l level (exec (setup_logger_times n) w) = true).
  { rewrite (ready_enabled "app" l level _ Hlevel Hdis). apply Z.leb_le. exact Hle. }
  rewrite (log_enabled_run ctx "app" level msg l _ Hl He).
  destruct (callHandlers_passes ctx "app" l (mkRecord "app" level msg None None)
              (add_record (mkRecord "app" level msg None None)
                          (exec (setup_logger_times n) w)) eq_refl)
    as (new & Hem & Hs & Hnew).
  - intros E. rewrite E in Hlen. cbn in Hlen. lia.
  - eapply Forall_impl; [exact Hlev|]. intros h Hh. cbn in Hh. cbn [r_levelno].
    rewrite Hh. unfold NOTSET, INFO in *. lia.
  - cbn [root add_record]. rewrite Hr. exact Hroot.
  - exists new. split; [exact Hem|]. split; [exact Hs|]. split.
    + rewrite <- (length_map fst new), Hs. unfold sinks_of. rewrite length_map. exact Hlen.
    + eapply Forall_impl; [exact Hnew|]. intros e (_ & Hlv & Hm). auto.
Qed.

Lemma each_setup_duplicates_output_witness :
  exists new,
    emitted (exec (log ∅ "app" ERROR "boom")
                  (exec (setup_logger_times 2) (fresh_world "/srv/app" (fun _ => 0))))
      = (emitted (exec (setup_logger_times 2) (fresh_world "/srv/app" (fun _ => 0)))
         ++ new)%list /\
    List.map fst new
      = sinks_of (handlers_of "app"
                    (exec (setup_logger_times 2) (fresh_world "/srv/app" (fun _ => 0)))) /\
    length new = 4%nat /\
    Forall (fun e => r_msg (snd e) = "boom" /\ r_levelno (snd e) = ERROR) new.
Proof.
  apply (each_setup_duplicates_output 2 ∅ ERROR "boom"
           (fresh_world "/srv/app" (fun _ => 0))).
  - apply lookup_empty.
  - reflexivity.
  - lia.
  - discriminate.
Defined.

Lemma handle_unbound ctx h f record w :
  h_filters h = [f] ->
  Py.truthy (var_get ctx request_id_ctx) = false ->
  handle ctx h record w =
    (default_id_record ctx w (drawn w) (r_name record) (r_levelno record) (r_msg record),
     add_emitted (ToHandler (h_id h))
       (default_id_record ctx w (drawn w) (r_name record) (r_levelno record) (r_msg record))
       (set_drawn (S (drawn w)) w)).
Proof.
  intros Hf Hu. unfold handle. rewrite Hf. cbn [filterer_filter].
  destruct f as [i []]. unfold run_filter. cbn [f_class].
  unfold bind. rewrite filter_unbound_id by exact Hu. reflexivity.
Qed.

Lemma call_each_pair_unbound ctx h1 h2 f1 f2 record w :
  h_filters h1 = [f1] -> h_filters h2 = [f2] ->
  h_level h1 <= r_levelno record -> h_level h2 <= r_levelno record ->
  Py.truthy (var_get ctx request_id_ctx) = false ->
  exec (call_each ctx [h1; h2] record) w =
    add_emitted (ToHandler (h_id h2))
      (default_id_record ctx w (S (drawn w)) (r_name record) (r_levelno record)
                         (r_msg record))
      (set_drawn (S (S (drawn w)))
         (add_emitted (ToHandler (h_id h1))
            (default_id_record ctx w (drawn w) (r_name record) (r_levelno record)
                               (r_msg record))
            w)).
Proof.
  intros Hf1 Hf2 Hl1 Hl2 Hu.
  apply Z.leb_le in Hl1. apply Z.leb_le in Hl2.
  unfold exec. cbn [call_each]. unfold bind. rewrite Hl1.
  rewrite (handle_unbound ctx h1 f1 record w Hf1 Hu).
  cbn [r_levelno default_id_record]. rewrite Hl2.
  rewrite (handle_unbound ctx h2 f2 _ _ Hf2 Hu).
  reflexivity.
Qed.

(** X9.  With no request id bound, the two sinks disagree on the request
    id of one and the same log call: after one [setup_logger] in a process
    where the logger "app" did not exist and the root logger has no
    handler, a call at INFO or above is emitted by the file handler with
    the UUID of one draw and by the console handler with the UUID of the
    next draw, so the two lines carry different request ids whenever the
    two UUIDs differ; two draws are taken per call. *)
Theorem sinks_disagree_on_default_id ctx level msg w :
  loggers w !! "app" = None ->
  l_handlers (root w) = [] ->
  INFO <= level ->
  ctx !! request_id_ctx = None ->
  emitted (exec (log ctx "app" level msg) (exec setup_logger w))
    = (emitted w ++
       [(ToHandler (next_id w), default_id_record ctx w (drawn w) "app" level msg);
        (ToHandler (S (next_id w)),
         default_id_record ctx w (S (drawn w)) "app" level msg)])%list /\
  drawn (exec (log ctx "app" level msg) (exec setup_logger w)) = S (S (drawn w)) /\
  (Uuid.uuid4 (entropy w (drawn w)) <> Uuid.uuid4 (entropy w (S (drawn w))) ->
   r_request_id (default_id_record ctx w (drawn w) "app" level msg)
     <> r_request_id (default_id_record ctx w (S (drawn w)) "app" level msg)).
Proof.
  intros Hnone Hroot Hle Hctx.
  assert (Hu : Py.truthy (var_get ctx request_id_ctx) = false)
    by (unfold var_get; rewrite Hctx; reflexivity).
  assert (Hh0 : handlers_of "app" w = []) by (unfold handlers_of; rewrite Hnone; reflexivity).
  assert (Hids : ids_below "app" w) by (unfold ids_below; rewrite Hh0; constructor).
  destruct (setup_logger_handlers w Hids) as (Hh & _).
  rewrite Hh0 in Hh. cbn [app] in Hh.
  destruct (setup_logger_app w) as (l & Hl & Hlev & Hdis & _).
  rewrite Hnone in Hdis. cbn in Hdis.
  destruct (setup_logger_rest w) as (Hr & _ & Hem & Hdr & Hen & _).
  set (w1 := exec setup_logger w) in *.
  unfold handlers_of in Hh. rewrite Hl in Hh.
  assert (Hrun : exec (log ctx "app" level msg) w1 =
                 exec (call_each ctx [new_file_handler w; new_console_handler w]
                         (mkRecord "app" level msg None None))
                      (add_record (mkRecord "app" level msg None None) w1)).
  { unfold log, exec. rewrite Hl, (ready_enabled "app" l level w1 Hlev Hdis).
    replace (INFO <=? level) with true by (symmetry; apply Z.leb_le; exact Hle).
    rewrite run_bind. cbn [eval exec modify fst snd].
    rewrite <- Hh. apply callHandlers_own.
    - reflexivity.
    - rewrite Hh. discriminate.
    - cbn [root add_record]. rewrite Hr. exact Hroot. }
  rewrite Hrun.
  rewrite (call_each_pair_unbound ctx (new_file_handler w) (new_console_handler w)
             (mkFilter (S (S (next_id w))) ContextFilter)
             (mkFilter (S (S (next_id w))) ContextFilter) _ _ eq_refl eq_refl);
    [| | | exact Hu].
  2, 3: cbn [r_levelno h_level new_file_handler new_console_handler];
        unfold INFO, NOTSET in *; lia.
  cbn [emitted drawn add_emitted set_drawn add_record new_file_handler
       new_console_handler h_id r_name r_levelno r_msg].
  unfold default_id_record. cbn [entropy add_record].
  rewrite Hem, Hdr, Hen.
  split; [rewrite <- app_assoc; reflexivity|]. split; [reflexivity|].
  intros Hne Heq. apply Hne. apply UuidFacts.uuid_str_inj.
  cbn [r_request_id] in Heq. congruence.
Qed.

Lemma sinks_disagree_on_default_id_witness :
  r_request_id (default_id_record ∅ (fresh_world "/srv/app" Z.of_nat) 0 "app" INFO
                  "request served")
  <> r_request_id (default_id_record ∅ (fresh_world "/srv/app" Z.of_nat) 1 "app" INFO
                     "request served").
Proof.
  destruct (sinks_disagree_on_default_id ∅ INFO "request served"
              (fresh_world "/srv/app" Z.of_nat)) as (_ & _ & Hdiff).
  - apply lookup_empty.
  - reflexivity.
  - discriminate.
  - apply lookup_empty.
  - apply Hdiff. vm_compute. discriminate.
Defined.

Section BoundId.
Context (ctx : gmap string Py.value).
Hypothesis Hid : Py.truthy (var_get ctx request_id_ctx) = true.

Lemma filterer_world fs : forall record w,
  exec (filterer_filter ctx fs record) w = w.
Proof.
  induction fs as [|f fs IH]; intros record w; [reflexivity|].
  cbn [filterer_filter]. rewrite exec_bind.
  destruct f as [i []]. unfold run_filter, eval, exec. cbn [f_class].
  rewrite filter_bound_id by exact Hid. cbn [fst snd]. apply IH.
Qed.

Lemma handle_drawn h record w :
  drawn (exec (handle ctx h record) w) = drawn w.
Proof.
  unfold handle. rewrite exec_bind, filterer_world.
  destruct (eval (filterer_filter ctx (h_filters h) record) w) as [[] r']; reflexivity.
Qed.

Lemma call_each_drawn hs : forall record w,
  drawn (exec (call_each ctx hs record) w) = drawn w.
Proof.
  induction hs as [|h hs IH]; intros record w; [reflexivity|].
  cbn [call_each]. rewrite exec_bind, IH.
  destruct (h_level h <=? r_levelno record); [apply handle_drawn | reflexivity].
Qed.

Lemma call_chain_drawn chain : forall record w,
  drawn (exec (call_chain ctx chain record) w) = drawn w.
Proof.
  induction chain as [|c up IH]; intros record w; [reflexivity|].
  cbn [call_chain]. rewrite exec_bind.
  destruct (l_propagate c); [|apply call_each_drawn].
  rewrite exec_bind.
  destruct (eval (call_chain ctx up _) _). cbn [exec ret snd].
  change (drawn (exec (call_chain ctx up (eval (call_each ctx (l_handlers c) record) w))
                      (exec (call_each ctx (l_handlers c) record) w)) = drawn w).
  rewrite IH. apply call_each_drawn.
Qed.

Lemma callHandlers_drawn name l record w :
  drawn (exec (callHandlers ctx name l record) w) = drawn w.
Proof.
  unfold callHandlers. unfold exec at 1. cbv beta. rewrite run_bind.
  rewrite <- (call_chain_drawn (l :: parents name w) record w).
  destruct (eval (call_chain ctx _ record) w) as [[|found] r]; [|reflexivity].
  destruct (WARNING <=? _); reflexivity.
Qed.

End BoundId.

(** X10.  When the context binds a truthy request id, logging never
    generates a UUID: whatever the logger, its handlers and the level, a
    call leaves the entropy source where it was. *)
Theorem bound_id_draws_nothing ctx name level msg w :
  Py.truthy (var_get ctx request_id_ctx) = true ->
  drawn (exec (log ctx name level msg) w) = drawn w.
Proof.
  intros Hid. unfold log, exec.
  destruct (loggers w !! name) as [l|]; [|reflexivity].
  destruct (isEnabledFor name l level w); [|reflexivity].
  rewrite run_bind. cbn [eval exec modify fst snd].
  change (drawn (exec (callHandlers ctx name l (mkRecord name level msg None None))
                      (add_record (mkRecord name level msg None None) w)) = drawn w).
  rewrite (callHandlers_drawn ctx Hid). reflexivity.
Qed.

Lemma bound_id_draws_nothing_witness :
  drawn (exec (log {[ request_id_ctx := Py.VStr "req-1" ]} "app" ERROR "boom")
              (exec setup_logger (fresh_world "/srv/app" (fun _ => 0)))) = 0%nat.
Proof.
  apply (bound_id_draws_nothing {[ request_id_ctx := Py.VStr "req-1" ]} "app" ERROR
           "boom" (exec setup_logger (fresh_world "/srv/app" (fun _ => 0)))).
  reflexivity.
Defined.

End EmissionFacts.

(** ** What the retry loop logs, and the loop under any cap *)

Module RetryLogFacts.
Import Logging LoggerService ErrorHandler DatabaseConn MonadFacts LoggingFacts
       Examples Observations SetupMoreFacts.

Lemma setup_logger_name w : eval setup_logger w = "app".
Proof.
  unfold setup_logger, eval, bind, modify, fresh, getLogger, setLevel, addHandler,
    update_logger, ret. simpl.
  destruct (loggers w !! "app"); reflexivity.
Qed.

Section Steps.
Context (ctx : gmap string Py.value) (logger url : string)
        (connect : Z -> connect_result) (cap : Z).

(** One iteration that fails and is followed by another. *)
Lemma step_retry a todo trace e w :
  connect a = OperationalError e -> (a <? cap) = true ->
  retry_loop ctx logger url connect cap (a :: todo) trace w =
    retry_loop ctx logger url connect cap todo
      ((trace ++ [Connect url]) ++ [Sleep RETRY_DELAY])%list
      (exec (warning ctx logger
               ("Database connection attempt " +:+ Py.str_int a +:+ " failed: " +:+ e))
         (exec (info ctx logger ("Connecting to the database, attempt " +:+ Py.str_int a))
               w)).
Proof.
  intros Hc Hlt. cbn [retry_loop]. rewrite run_bind. cbv beta. rewrite Hc.
  rewrite run_bind. cbv beta. rewrite Hlt. reflexivity.
Qed.

(** The last iteration, failing. *)
Lemma step_exhausted a todo trace e w :
  connect a = OperationalError e -> (a <? cap) = false ->
  retry_loop ctx logger url connect cap (a :: todo) trace w =
    (Raised (APIException_init "Database connection error" (Some 500)
               (Some (Py.VDict [("error", Py.VStr e)]))),
     (trace ++ [Connect url])%list,
     exec (error ctx logger "All database connection attempts failed")
       (exec (warning ctx logger
                ("Database connection attempt " +:+ Py.str_int a +:+ " failed: " +:+ e))
          (exec (info ctx logger ("Connecting to the database, attempt " +:+ Py.str_int a))
                w))).
Proof.
  intros Hc Hlt. cbn [retry_loop]. rewrite run_bind. cbv beta. rewrite Hc.
  rewrite run_bind. cbv beta. rewrite Hlt. rewrite run_bind. reflexivity.
Qed.

(** An iteration that succeeds. *)
Lemma step_connected a todo trace c w :
  connect a = Connection c ->
  retry_loop ctx logger url connect cap (a :: todo) trace w =
    (Bound c, (trace ++ [Connect url])%list,
     exec (info ctx logger "Database connection successful")
       (exec (info ctx logger ("Connecting to the database, attempt " +:+ Py.str_int a))
             w)).
Proof.
  intros Hc. cbn [retry_loop]. rewrite run_bind. cbv beta. rewrite Hc.
  rewrite run_bind. reflexivity.
Qed.

(** An iteration that raises something else. *)
Lemma step_other a todo trace e w :
  connect a = OtherError e ->
  retry_loop ctx logger url connect cap (a :: todo) trace w =
    (Propagated e, (trace ++ [Connect url])%list,
     exec (info ctx logger ("Connecting to the database, attempt " +:+ Py.str_int a)) w).
Proof.
  intros Hc. cbn [retry_loop]. rewrite run_bind. cbv beta. rewrite Hc. reflexivity.
Qed.

End Steps.

Lemma load_run ctx url connect w :
  load ctx url connect w =
    retry_loop ctx "app" url connect 3 [1; 2; 3] [] (exec setup_logger w).
Proof.
  unfold load. rewrite run_bind, setup_logger_name. reflexivity.
Qed.

Lemma load_exec_exhausted ctx url connect w e1 e2 e3 :
  connect 1 = OperationalError e1 ->
  connect 2 = OperationalError e2 ->
  connect 3 = OperationalError e3 ->
  exec (load ctx url connect) w =
    log_all ctx "app"
      [(INFO, "Connecting to the database, attempt " +:+ Py.str_int 1);
       (WARNING, "Database connection attempt " +:+ Py.str_int 1 +:+ " failed: " +:+ e1);
       (INFO, "Connecting to the database, attempt " +:+ Py.str_int 2);
       (WARNING, "Database connection attempt " +:+ Py.str_int 2 +:+ " failed: " +:+ e2);
       (INFO, "Connecting to the database, attempt " +:+ Py.str_int 3);
       (WARNING, "Database connection attempt " +:+ Py.str_int 3 +:+ " failed: " +:+ e3);
       (ERROR, "All database connection attempts failed")]
      (exec setup_logger w).
Proof.
  intros H1 H2 H3. unfold exec at 1. rewrite load_run.
  rewrite (step_retry ctx "app" url connect 3 1 _ _ e1 _ H1 eq_refl).
  rewrite (step_retry ctx "app" url connect 3 2 _ _ e2 _ H2 eq_refl).
  rewrite (step_exhausted ctx "app" url connect 3 3 _ _ e3 _ H3 eq_refl).
  cbn [snd]. unfold log_all. cbn [fold_left fst snd]. reflexivity.
Qed.

Lemma load_exec_first_try ctx url connect w c :
  connect 1 = Connection c ->
  exec (load ctx url connect) w =
    log_all ctx "app"
      [(INFO, "Connecting to the database, attempt " +:+ Py.str_int 1);
       (INFO, "Database connection successful")]
      (exec setup_logger w).
Proof.
  intros H1. unfold exec at 1. rewrite load_run.
  rewrite (step_connected ctx "app" url connect 3 1 _ _ c _ H1).
  cbn [snd]. unfold log_all. cbn [fold_left fst snd]. reflexivity.
Qed.

(** X11.  What the loop leaves in the log, on a logger "app" that was not
    disabled.  When all three attempts raise [OperationalError]: seven
    records, an INFO line announcing each attempt, a WARNING line with the
    error text after each failure, and one ERROR line at the end.  When
    the first attempt succeeds: the INFO line announcing it and the INFO
    line reporting success, and nothing else. *)
Theorem retry_log_lines ctx url connect w :
  (forall l, loggers w !! "app" = Some l -> l_disabled l = false) ->
  (forall e1 e2 e3,
      connect 1 = OperationalError e1 ->
      connect 2 = OperationalError e2 ->
      connect 3 = OperationalError e3 ->
      records (exec (load ctx url connect) w) =
        (records w ++
         [mkRecord "app" INFO "Connecting to the database, attempt 1" None None;
          mkRecord "app" WARNING ("Database connection attempt 1 failed: " +:+ e1)
                   None None;
          mkRecord "app" INFO "Connecting to the database, attempt 2" None None;
          mkRecord "app" WARNING ("Database connection attempt 2 failed: " +:+ e2)
                   None None;
          mkRecord "app" INFO "Connecting to the database, attempt 3" None None;
          mkRecord "app" WARNING ("Database connection attempt 3 failed: " +:+ e3)
                   None None;
          mkRecord "app" ERROR "All database connection attempts failed" None None])%list) /\
  (forall c,
      connect 1 = Connection c ->
      records (exec (load ctx url connect) w) =
        (records w ++
         [mkRecord "app" INFO "Connecting to the database, attempt 1" None None;
          mkRecord "app" INFO "Database connection successful" None None])%list).
Proof.
  intros Hen.
  assert (Hready : app_ready (exec setup_logger w)) by (apply setup_ready; exact Hen).
  destruct (setup_logger_rest w) as (_ & Hrec & _).
  split.
  - intros e1 e2 e3 H1 H2 H3.
    rewrite (load_exec_exhausted ctx url connect w e1 e2 e3 H1 H2 H3).
    rewrite log_all_records; [rewrite Hrec; reflexivity | exact Hready |].
    repeat constructor; discriminate.
  - intros c H1. rewrite (load_exec_first_try ctx url connect w c H1).
    rewrite log_all_records; [rewrite Hrec; reflexivity | exact Hready |].
    repeat constructor; discriminate.
Qed.

Lemma retry_log_lines_witness :
  List.map r_levelno
    (records (exec (load ∅ "postgresql://db/auth" always_failing)
                   (fresh_world "/srv/app" (fun _ => 0))))
  = [INFO; WARNING; INFO; WARNING; INFO; WARNING; ERROR].
Proof.
  destruct (retry_log_lines ∅ "postgresql://db/auth" always_failing
              (fresh_world "/srv/app" (fun _ => 0))) as (Hfail & _).
  - intros l Hl. unfold fresh_world in Hl. cbn [loggers] in Hl.
    rewrite lookup_empty in Hl. discriminate Hl.
  - rewrite (Hfail "timeout" "timeout" "timeout" eq_refl eq_refl eq_refl). reflexivity.
Defined.

Lemma connects_snoc_connect trace url :
  connects (trace ++ [Connect url]) = S (connects trace).
Proof. unfold connects. rewrite List.filter_app, length_app. cbn. lia. Qed.

Lemma connects_snoc_sleep trace s :
  connects (trace ++ [Sleep s]) = connects trace.
Proof. unfold connects. rewrite List.filter_app, length_app. cbn. lia. Qed.

Lemma sleeps_snoc_connect trace url :
  sleeps (trace ++ [Connect url]) = sleeps trace.
Proof. unfold sleeps. rewrite List.filter_app, length_app. cbn. lia. Qed.

Lemma sleeps_snoc_sleep trace s :
  sleeps (trace ++ [Sleep s]) = S (sleeps trace).
Proof. unfold sleeps. rewrite List.filter_app, length_app. cbn. lia. Qed.

Lemma retry_loop_exhausts ctx logger url connect err n :
  (forall k, 1 <= k <= Z.of_nat n -> connect k = OperationalError (err k)) ->
  forall len a trace w,
    (1 <= a)%nat -> (a + len = n)%nat ->
    fst (eval (retry_loop ctx logger url connect (Z.of_nat n)
                 (List.map Z.of_nat (seq a (S len))) trace) w)
      = Raised (mkAPIException "Database connection error" 500
                  (Py.VDict [("error", Py.VStr (err (Z.of_nat n)))])) /\
    connects (snd (eval (retry_loop ctx logger url connect (Z.of_nat n)
                           (List.map Z.of_nat (seq a (S len))) trace) w))
      = (connects trace + S len)%nat /\
    sleeps (snd (eval (retry_loop ctx logger url connect (Z.of_nat n)
                         (List.map Z.of_nat (seq a (S len))) trace) w))
      = (sleeps trace + len)%nat.
Proof.
  intros Hfail. induction len as [|len IH]; intros a trace w Ha Hn.
  - assert (a = n) by lia. subst a. cbn [seq List.map]. unfold eval.
    rewrite (step_exhausted ctx logger url connect (Z.of_nat n) (Z.of_nat n) [] trace
               (err (Z.of_nat n)) w (Hfail (Z.of_nat n) ltac:(lia)) (Z.ltb_irrefl _)).
    cbn [fst snd]. rewrite connects_snoc_connect, sleeps_snoc_connect.
    split; [reflexivity | split; lia].
  - cbn [seq List.map]. unfold eval.
    rewrite (step_retry ctx logger url connect (Z.of_nat n) (Z.of_nat a) _ trace
               (err (Z.of_nat a)) w (Hfail (Z.of_nat a) ltac:(lia))
               ltac:(apply Z.ltb_lt; lia)).
    destruct (IH (S a) ((trace ++ [Connect url]) ++ [Sleep RETRY_DELAY])%list
                (exec (warning ctx logger
                         ("Database connection attempt " +:+ Py.str_int (Z.of_nat a)
                          +:+ " failed: " +:+ err (Z.of_nat a)))
                   (exec (info ctx logger
                            ("Connecting to the database, attempt "
                             +:+ Py.str_int (Z.of_nat a))) w))
                ltac:(lia) ltac:(lia)) as (Ho & Hc & Hs).
    unfold eval in Ho, Hc, Hs. cbn [seq List.map] in Ho, Hc, Hs.
    rewrite Ho, Hc, Hs.
    rewrite connects_snoc_sleep, connects_snoc_connect, sleeps_snoc_sleep,
      sleeps_snoc_connect.
    split; [reflexivity | split; lia].
Qed.

(** X12.  The bound of the loop is right for every cap, not only for 3:
    with [MAX_RETRIES = n >= 1] and a connector whose first [n] calls all
    raise [OperationalError], the loop makes exactly [n] attempts and
    [n - 1] sleeps and raises APIException with status 500 and the text of
    the [n]-th error; with a cap of 0 it makes no attempt at all and ends
    with [conn] unbound. *)
Theorem retry_under_any_cap ctx logger url connect err n w :
  (1 <= n)%nat ->
  (forall k, 1 <= k <= Z.of_nat n -> connect k = OperationalError (err k)) ->
  fst (eval (retry ctx logger url connect n) w)
    = Raised (mkAPIException "Database connection error" 500
                (Py.VDict [("error", Py.VStr (err (Z.of_nat n)))])) /\
  connects (snd (eval (retry ctx logger url connect n) w)) = n /\
  S (sleeps (snd (eval (retry ctx logger url connect n) w))) = n /\
  eval (retry ctx logger url connect 0) w = (Unbound, []).
Proof.
  intros Hn Hfail. unfold retry, attempts. rewrite Nat2Z.id.
  destruct n as [|n]; [lia|].
  destruct (retry_loop_exhausts ctx logger url connect err (S n) Hfail n 1%nat [] w
              ltac:(lia) ltac:(lia)) as (Ho & Hc & Hs).
  rewrite Ho, Hc, Hs. cbn. repeat split; lia.
Qed.

Lemma retry_under_any_cap_witness :
  fst (eval (retry ∅ "app" "postgresql://db/auth" always_failing 5)
            (fresh_world "/srv/app" (fun _ => 0)))
    = Raised (mkAPIException "Database connection error" 500
                (Py.VDict [("error", Py.VStr "timeout")])) /\
  connects (snd (eval (retry ∅ "app" "postgresql://db/auth" always_failing 5)
                      (fresh_world "/srv/app" (fun _ => 0)))) = 5%nat.
Proof.
  destruct (retry_under_any_cap ∅ "app" "postgresql://db/auth" always_failing
              (fun _ => "timeout") 5 (fresh_world "/srv/app" (fun _ => 0)))
    as (Ho & Hc & _).
  - lia.
  - intros k Hk. reflexivity.
  - split; [exact Ho | exact Hc].
Defined.

End RetryLogFacts.

(** ** Sinks under a bound context, and the mapper's error line *)

Module MapperMoreFacts.
Import Logging LoggerService ErrorHandler Http MonadFacts LoggingFacts IsolationFacts
       Examples Observations SetupMoreFacts EmissionFacts.

Lemma record_determined rid ip r r' :
  same_call r r' -> carries rid ip r' ->
  r' = mkRecord (r_name r) (r_levelno r) (r_msg r) (Some rid) (Some ip).
Proof.
  intros (Hn & Hl & Hm) (Hr & Hi). destruct r' as [n' l' m' rid' ip'].
  cbn in *. subst. reflexivity.
Qed.

Lemma entries_determined (hs : list Handler) (r : LogRecord) :
  forall new : list (Sink * LogRecord),
    List.map fst new = sinks_of hs ->
    Forall (fun e => snd e = r) new ->
    new = List.map (fun h => (ToHandler (h_id h), r)) hs.
Proof.
  induction hs as [|h hs IH]; intros [|[s r'] new] Hs Hall; cbn in Hs;
    try discriminate; [reflexivity|].
  injection Hs as Hs1 Hs2. apply List.Forall_cons_iff in Hall as [Hr Hrest].
  cbn in Hr. subst r' s. cbn [List.map]. f_equal. apply IH; assumption.
Qed.

Lemma callHandlers_bound_exact ctx rid ip name l record w :
  ancestors name = [] ->
  bound ctx rid ip ->
  l_handlers l <> [] ->
  Forall (fun h => h_level h <= r_levelno record) (l_handlers l) ->
  Forall (fun h => h_filters h <> []) (l_handlers l) ->
  l_handlers (root w) = [] ->
  emitted (exec (callHandlers ctx name l record) w)
    = (emitted w ++
       List.map (fun h => (ToHandler (h_id h),
                           mkRecord (r_name record) (r_levelno record) (r_msg record)
                                    (Some rid) (Some ip)))
                (l_handlers l))%list.
Proof.
  intros Ha Hb Hne Hlev Hfil Hroot.
  destruct (callHandlers_passes ctx name l record w Ha Hne Hlev Hroot)
    as (new & Hem & Hs & Hsame).
  destruct (callHandlers_bound ctx rid ip Hb name l record w Ha Hne Hfil Hroot)
    as (_ & _ & _ & _ & _ & _ & _ & new' & Hem' & Hcar).
  rewrite Hem in Hem'. apply app_inv_head in Hem'. subst new'.
  rewrite Hem. f_equal. apply entries_determined; [exact Hs|].
  rewrite Forall_forall in Hsame, Hcar. apply Forall_forall. intros e Hin.
  apply (record_determined rid ip record (snd e)); [apply Hsame | apply Hcar]; exact Hin.
Qed.

(** X13.  With a request id and a client ip bound, every sink gets the
    same record: when the logger "app" is enabled for the call, has
    handlers, each with a level at or below the call's and with a filter,
    and the root logger has none, one call emits, once per handler and in
    handler order, the record with the call's name, level and message and
    with exactly the bound request id and client ip. *)
Theorem sinks_agree_on_bound_id ctx rid ip level msg l w :
  bound ctx rid ip ->
  loggers w !! "app" = Some l ->
  isEnabledFor "app" l level w = true ->
  l_handlers l <> [] ->
  Forall (fun h => h_level h <= level) (l_handlers l) ->
  Forall (fun h => h_filters h <> []) (l_handlers l) ->
  l_handlers (root w) = [] ->
  emitted (exec (log ctx "app" level msg) w)
    = (emitted w ++
       List.map (fun h => (ToHandler (h_id h),
                           mkRecord "app" level msg (Some rid) (Some ip)))
                (l_handlers l))%list.
Proof.
  intros Hb Hl He Hne Hlev Hfil Hroot.
  rewrite (log_enabled_run ctx "app" level msg l w Hl He).
  apply (callHandlers_bound_exact ctx rid ip "app" l (mkRecord "app" level msg None None)
           (add_record (mkRecord "app" level msg None None) w) eq_refl Hb Hne Hlev Hfil
           Hroot).
Qed.

Lemma sinks_agree_on_bound_id_witness :
  emitted (exec (log (<[request_id_ctx := Py.VStr "req-1"]>
                        (<[client_ip_ctx := Py.VStr "10.0.0.1"]> ∅))
                   "app" WARNING "slow query")
                (exec setup_logger (fresh_world "/srv/app" (fun _ => 0))))
  = [(ToHandler 0, mkRecord "app" WARNING "slow query" (Some (Py.VStr "req-1"))
                            (Some (Py.VStr "10.0.0.1")));
     (ToHandler 1, mkRecord "app" WARNING "slow query" (Some (Py.VStr "req-1"))
                            (Some (Py.VStr "10.0.0.1")))].
Proof.
  apply (sinks_agree_on_bound_id
           (<[request_id_ctx := Py.VStr "req-1"]>
              (<[client_ip_ctx := Py.VStr "10.0.0.1"]> ∅))
           (Py.VStr "req-1") (Py.VStr "10.0.0.1") WARNING "slow query"
           (mkLogger INFO
              (handlers_of "app" (exec setup_logger (fresh_world "/srv/app" (fun _ => 0))))
              true false)
           (exec setup_logger (fresh_world "/srv/app" (fun _ => 0)))).
  - repeat split; reflexivity.
  - vm_compute. reflexivity.
  - vm_compute. reflexivity.
  - vm_compute. discriminate.
  - vm_compute. repeat constructor; discriminate.
  - vm_compute. repeat constructor; discriminate.
  - reflexivity.
Defined.

(** X14.  The error line of a request reaches every sink with the
    request's identity on it: under the same conditions (logger "app"
    enabled for ERROR), handling an APIException emits, once per handler,
    the ERROR record whose message is
    ["Error: <message> | Path: <path> | Details: <details>"] and whose
    request id and client ip are the ones bound in the request's context;
    nothing else is emitted. *)
Theorem mapper_error_line_on_every_sink ctx rid ip request exc l w :
  bound ctx rid ip ->
  loggers w !! "app" = Some l ->
  isEnabledFor "app" l ERROR w = true ->
  l_handlers l <> [] ->
  Forall (fun h => h_level h <= ERROR) (l_handlers l) ->
  Forall (fun h => h_filters h <> []) (l_handlers l) ->
  l_handlers (root w) = [] ->
  emitted (exec (Main.api_exception_handler ctx "app" request exc) w)
    = (emitted w ++
       List.map (fun h => (ToHandler (h_id h),
                           mkRecord "app" ERROR
                             ("Error: " +:+ message exc +:+ " | Path: " +:+
                              url_path request +:+ " | Details: " +:+
                              Py.str (details exc))
                             (Some rid) (Some ip)))
                (l_handlers l))%list.
Proof.
  intros Hb Hl He Hne Hlev Hfil Hroot.
  unfold Main.api_exception_handler, LoggerService.error. rewrite exec_bind, exec_ret.
  set (line := "Error: " +:+ message exc +:+ " | Path: " +:+ url_path request +:+
               " | Details: " +:+ Py.str (details exc)).
  rewrite (log_enabled_run ctx "app" ERROR line l w Hl He).
  apply (callHandlers_bound_exact ctx rid ip "app" l (mkRecord "app" ERROR line None None)
           (add_record (mkRecord "app" ERROR line None None) w) eq_refl Hb Hne Hlev Hfil
           Hroot).
Qed.

Lemma mapper_error_line_on_every_sink_witness :
  List.map (fun e => r_request_id (snd e))
    (emitted (exec (Main.api_exception_handler
                      (<[request_id_ctx := Py.VStr "req-1"]>
                         (<[client_ip_ctx := Py.VStr "10.0.0.1"]> ∅))
                      "app" (mkRequest "/login") example_error)
                   (exec setup_logger (fresh_world "/srv/app" (fun _ => 0)))))
  = [Some (Py.VStr "req-1"); Some (Py.VStr "req-1")].
Proof.
  rewrite (mapper_error_line_on_every_sink
             (<[request_id_ctx := Py.VStr "req-1"]>
                (<[client_ip_ctx := Py.VStr "10.0.0.1"]> ∅))
             (Py.VStr "req-1") (Py.VStr "10.0.0.1") (mkRequest "/login") example_error
             (mkLogger INFO
                (handlers_of "app"
                   (exec setup_logger (fresh_world "/srv/app" (fun _ => 0))))
                true false)
             (exec setup_logger (fresh_world "/srv/app" (fun _ => 0)))).
  - reflexivity.
  - repeat split; reflexivity.
  - vm_compute. reflexivity.
  - vm_compute. reflexivity.
  - vm_compute. discriminate.
  - vm_compute. repeat constructor; discriminate.
  - vm_compute. repeat constructor; discriminate.
  - reflexivity.
Defined.

End MapperMoreFacts.

(** ** Registering the instruments *)

Module MetricsMoreFacts.
Import Metrics.

Lemma register_some m r r' :
  register m r = Some r' ->
  collectors r' = (collectors r ++ [m])%list /\
  claimed r' = list_to_set (series_names m) ∪ claimed r /\
  Forall (fun n => n ∉ claimed r) (series_names m).
Proof.
  unfold register. destruct (existsb _ _) eqn:E; [discriminate|].
  intros [= <-]. split; [reflexivity|]. split; [reflexivity|].
  apply Forall_forall. intros n Hin Hcl.
  assert (Hex : existsb (fun n0 => bool_decide (n0 ∈ claimed r)) (series_names m) = true).
  { apply existsb_exists. exists n.
    split; [apply list_elem_of_In; exact Hin | apply bool_decide_eq_true; exact Hcl]. }
  congruence.
Qed.

Lemma register_claimed m r n :
  n ∈ series_names m -> n ∈ claimed r -> register m r = None.
Proof.
  intros Hin Hcl. unfold register.
  replace (existsb _ _) with true; [reflexivity|].
  symmetry. apply existsb_exists. exists n.
  split; [apply list_elem_of_In; exact Hin | apply bool_decide_eq_true; exact Hcl].
Qed.

Lemma load_steps r :
  load r = (register REQUEST_COUNT r ≫= register REQUEST_LATENCY) ≫= register IN_PROGRESS.
Proof. reflexivity. Qed.

(** X15.  Loading the metrics module into a registry either is refused or
    adds exactly its three instruments, in order, after those already
    there; and once it has been loaded it cannot be loaded again: the
    second registration of [http_requests_total] is refused (the
    duplicate time series error), whatever else the registry holds. *)
Theorem metrics_load_once r r' :
  load r = Some r' ->
  collectors r' = (collectors r ++ [REQUEST_COUNT; REQUEST_LATENCY; IN_PROGRESS])%list /\
  load r' = None.
Proof.
  rewrite load_steps. intros H.
  destruct (register REQUEST_COUNT r) as [r1|] eqn:E1; [|discriminate].
  cbn [mbind option_bind] in H.
  destruct (register REQUEST_LATENCY r1) as [r2|] eqn:E2; [|discriminate].
  cbn [mbind option_bind] in H.
  destruct (register_some _ _ _ E1) as (Hc1 & Hn1 & _).
  destruct (register_some _ _ _ E2) as (Hc2 & Hn2 & _).
  destruct (register_some _ _ _ H) as (Hc3 & Hn3 & _).
  split.
  - rewrite Hc3, Hc2, Hc1, <- !app_assoc. reflexivity.
  - rewrite load_steps.
    rewrite (register_claimed REQUEST_COUNT r' "http_requests"); [reflexivity| |].
    + vm_compute. left.
    + rewrite Hn3, Hn2, Hn1. apply elem_of_union_r, elem_of_union_r, elem_of_union_l.
      apply elem_of_list_to_set. vm_compute. left.
Qed.

Lemma metrics_load_once_witness :
  collectors Observations.loaded_registry = [REQUEST_COUNT; REQUEST_LATENCY; IN_PROGRESS] /\
  load Observations.loaded_registry = None.
Proof.
  apply (metrics_load_once empty_registry Observations.loaded_registry).
  vm_compute. reflexivity.
Defined.

End MetricsMoreFacts.

(** ** Starting the service *)

Module StartupFacts.
Import Logging LoggerService ErrorHandler DatabaseConn MonadFacts LoggingFacts SetupFacts
       IsolationFacts Examples Observations SetupMoreFacts EmissionFacts RetryLogFacts.

Lemma log_config ctx name level msg w :
  loggers (exec (log ctx name level msg) w) = loggers w /\
  root (exec (log ctx name level msg) w) = root w /\
  next_id (exec (log ctx name level msg) w) = next_id w.
Proof.
  destruct (loggers w !! name) as [l|] eqn:Hl.
  - destruct (isEnabledFor name l level w) eqn:He.
    + destruct (log_enabled ctx name level msg l w Hl He)
        as (_ & _ & Hn & Hlog & Hr & _).
      auto.
    + rewrite (log_disabled ctx name level msg l w Hl He). auto.
  - unfold log, exec. rewrite Hl. auto.
Qed.

Lemma retry_loop_config ctx logger url connect cap todo : forall trace w,
  loggers (exec (retry_loop ctx logger url connect cap todo trace) w) = loggers w /\
  root (exec (retry_loop ctx logger url connect cap todo trace) w) = root w /\
  next_id (exec (retry_loop ctx logger url connect cap todo trace) w) = next_id w.
Proof.
  induction todo as [|a todo IH]; intros trace w; [auto|].
  unfold exec.
  destruct (log_config ctx logger INFO
              ("Connecting to the database, attempt " +:+ Py.str_int a) w)
    as (Ha1 & Ha2 & Ha3).
  destruct (connect a) as [c|e|e] eqn:Hc.
  - rewrite (step_connected ctx logger url connect cap a todo trace c w Hc). cbn [snd].
    destruct (log_config ctx logger INFO "Database connection successful"
                (exec (info ctx logger
                         ("Connecting to the database, attempt " +:+ Py.str_int a)) w))
      as (Hb1 & Hb2 & Hb3).
    unfold info in *. rewrite Hb1, Hb2, Hb3. auto.
  - destruct (log_config ctx logger WARNING
                ("Database connection attempt " +:+ Py.str_int a +:+ " failed: " +:+ e)
                (exec (info ctx logger
                         ("Connecting to the database, attempt " +:+ Py.str_int a)) w))
      as (Hb1 & Hb2 & Hb3).
    destruct (a <? cap) eqn:Hlt.
    + rewrite (step_retry ctx logger url connect cap a todo trace e w Hc Hlt).
      destruct (IH ((trace ++ [Connect url]) ++ [Sleep RETRY_DELAY])%list
                  (exec (warning ctx logger
                           ("Database connection attempt " +:+ Py.str_int a
                            +:+ " failed: " +:+ e))
                     (exec (info ctx logger
                              ("Connecting to the database, attempt "
                               +:+ Py.str_int a)) w)))
        as (Hc1 & Hc2 & Hc3).
      unfold exec, info, warning in *. rewrite Hc1, Hc2, Hc3, Hb1, Hb2, Hb3. auto.
    + rewrite (step_exhausted ctx logger url connect cap a todo trace e w Hc Hlt).
      cbn [snd].
      destruct (log_config ctx logger ERROR "All database connection attempts failed"
                  (exec (warning ctx logger
                           ("Database connection attempt " +:+ Py.str_int a
                            +:+ " failed: " +:+ e))
                     (exec (info ctx logger
                              ("Connecting to the database, attempt "
                               +:+ Py.str_int a)) w)))
        as (Hc1 & Hc2 & Hc3).
      unfold info, warning, error in *. rewrite Hc1, Hc2, Hc3, Hb1, Hb2, Hb3. auto.
  - rewrite (step_other ctx logger url connect cap a todo trace e w Hc). cbn [snd].
    unfold info in *. auto.
Qed.

Lemma load_config ctx url connect w :
  loggers (exec (load ctx url connect) w) = loggers (exec setup_logger w) /\
  root (exec (load ctx url connect) w) = root w /\
  next_id (exec (load ctx url connect) w) = next_id (exec setup_logger w).
Proof.
  assert (E : exec (load ctx url connect) w =
              exec (retry_loop ctx "app" url connect 3 [1; 2; 3] []) (exec setup_logger w))
    by (unfold exec at 1; rewrite load_run; reflexivity).
  rewrite E.
  destruct (retry_loop_config ctx "app" url connect 3 [1; 2; 3] [] (exec setup_logger w))
    as (H1 & H2 & H3).
  destruct (setup_logger_rest w) as (Hr & _).
  rewrite H1, H2, H3. auto.
Qed.

(** X16.  A successful start of [main.py] leaves two sink sets on the
    logger: in a process where the logger "app" did not exist and the root
    logger has no handler, when the database loop ends with [conn] bound,
    [setup_logger] has run twice (once in [database_conn.py], once in
    [main.py]), the logger "app" has two file handlers and two console
    handlers, and every later call at INFO or above is emitted four
    times. *)
Theorem main_startup_two_sink_sets ctx url connect w c :
  loggers w !! "app" = None ->
  l_handlers (root w) = [] ->
  fst (eval (load ctx url connect) w) = Bound c ->
  eval (main_startup ctx url connect) w = Some "app" /\
  count_files (exec (main_startup ctx url connect) w) = 2%nat /\
  count_consoles (exec (main_startup ctx url connect) w) = 2%nat /\
  (forall ctx' level msg,
      INFO <= level ->
      exists new,
        emitted (exec (log ctx' "app" level msg) (exec (main_startup ctx url connect) w))
          = (emitted (exec (main_startup ctx url connect) w) ++ new)%list /\
        length new = 4%nat /\
        Forall (fun e => r_msg (snd e) = msg) new).
Proof.
  intros Hnone Hroot Hbound.
  assert (Hh0 : handlers_of "app" w = []) by (unfold handlers_of; rewrite Hnone; reflexivity).
  assert (Hids : ids_below "app" w) by (unfold ids_below; rewrite Hh0; constructor).
  destruct (setup_logger_handlers w Hids) as (Hh1 & _).
  rewrite Hh0 in Hh1. cbn [app] in Hh1.
  pose proof (setup_logger_ids_below w Hids) as Hids1.
  destruct (load_config ctx url connect w) as (Hlog & Hr2 & Hn2).
  set (w2 := exec (load ctx url connect) w) in *.
  assert (Hh2 : handlers_of "app" w2 = [new_file_handler w; new_console_handler w])
    by (unfold handlers_of; rewrite Hlog; exact Hh1).
  assert (Hids2 : ids_below "app" w2).
  { unfold ids_below in *. rewrite Hh2, Hn2, <- Hh1. exact Hids1. }
  assert (Hrun : exec (main_startup ctx url connect) w = exec setup_logger w2).
  { unfold main_startup. rewrite exec_bind, Hbound, exec_bind. reflexivity. }
  destruct (setup_logger_handlers w2 Hids2) as (Hhs & _).
  rewrite Hh2 in Hhs. cbn [app] in Hhs.
  split; [|split; [|split]].
  - unfold main_startup. rewrite eval_bind, Hbound, eval_bind, setup_logger_name.
    reflexivity.
  - unfold count_files. rewrite Hrun, Hhs. reflexivity.
  - unfold count_consoles. rewrite Hrun, Hhs. reflexivity.
  - intros ctx' level msg Hle. rewrite Hrun.
    assert (Hready : app_ready (exec setup_logger w2)).
    { apply setup_keeps_ready.
      destruct (setup_ready w) as (l & Hl & Hlev & Hdis).
      { intros l Hl. rewrite Hnone in Hl. discriminate Hl. }
      exists l. rewrite Hlog. auto. }
    destruct Hready as (l & Hl & Hlev & Hdis).
    assert (Hlh : l_handlers l = [new_file_handler w; new_console_handler w;
                                  new_file_handler w2; new_console_handler w2]).
    { unfold handlers_of in Hhs. rewrite Hl in Hhs. exact Hhs. }
    assert (He : isEnabledFor "app" l level (exec setup_logger w2) = true).
    { rewrite (ready_enabled "app" l level _ Hlev Hdis). apply Z.leb_le. exact Hle. }
    rewrite (log_enabled_run ctx' "app" level msg l _ Hl He).
    destruct (callHandlers_passes ctx' "app" l (mkRecord "app" level msg None None)
                (add_record (mkRecord "app" level msg None None) (exec setup_logger w2))
                eq_refl)
      as (new & Hem & Hs & Hsame).
    + rewrite Hlh. discriminate.
    + rewrite Hlh. unfold INFO in Hle. repeat constructor; cbn; unfold NOTSET; lia.
    + cbn [root add_record]. destruct (setup_logger_rest w2) as (Hr & _).
      rewrite Hr, Hr2. exact Hroot.
    + exists new. split; [exact Hem|]. split.
      * rewrite <- (length_map fst new), Hs, Hlh. reflexivity.
      * eapply Forall_impl; [exact Hsame|]. intros e (_ & _ & Hm). exact Hm.
Qed.

Lemma main_startup_two_sink_sets_witness :
  eval (main_startup ∅ "postgresql://db/auth" third_time_lucky)
       (fresh_world "/srv/app" (fun _ => 0)) = Some "app" /\
  count_files (exec (main_startup ∅ "postgresql://db/auth" third_time_lucky)
                    (fresh_world "/srv/app" (fun _ => 0))) = 2%nat.
Proof.
  destruct (main_startup_two_sink_sets ∅ "postgresql://db/auth" third_time_lucky
              (fresh_world "/srv/app" (fun _ => 0)) 7%nat) as (He & Hf & _).
  - apply lookup_empty.
  - reflexivity.
  - vm_compute. reflexivity.
  - split; [exact He | exact Hf].
Defined.

End StartupFacts.
